(** * TWAMP daemon and reflector: shared-memory codec, probe burst,
      measurement cycle and echo loop

    A shallow embedding of [twamp_daemon.py] and [twamp_reflector.py].

    - The mapped region is a [list byte]; slicing follows Python's rules
      for [mmap] objects (clamped bounds on reads, exact-size requirement
      on slice assignment).
    - [struct.pack] / [struct.unpack] are interpreted over the four format
      characters the program uses ([B], [H], [I], [Q]), with their size
      and range checks.
    - Exceptions are explicit: every operation that can raise returns an
      [outcome], and stateful code runs in a state-and-exception monad
      which keeps the state reached when the exception was raised.
    - Clock readings and socket behaviour come from an oracle ([world]).
      Python floats are represented by exact rationals; rounding is not
      modelled.  [print] calls and [time.sleep] are omitted. *)

From Stdlib Require Import ZArith List Bool Lia QArith.
From Stdlib Require Import Strings.Byte.
From Stdlib Require Strings.String Numbers.DecimalString.
Import ListNotations.

Local Open Scope Z_scope.

(* ================================================================== *)
(** ** Exceptions and the state-and-exception monad *)

Inductive exn : Type :=
| StructError      (* struct.error *)
| ValueError       (* wrong number of values in a tuple assignment *)
| IndexError       (* mmap slice assignment is wrong size *)
| TypeError        (* operand of the wrong type *)
| SocketTimeout    (* socket.timeout *)
| OSError.         (* any other socket-level failure *)

Inductive outcome (A : Type) : Type :=
| Ret (a : A)
| Raise (e : exn).
Arguments Ret {A} a.
Arguments Raise {A} e.

Definition is_raise {A} (o : outcome A) : bool :=
  match o with Ret _ => false | Raise _ => true end.

Definition exn_eqb (a b : exn) : bool :=
  match a, b with
  | StructError, StructError | ValueError, ValueError
  | IndexError, IndexError | TypeError, TypeError
  | SocketTimeout, SocketTimeout | OSError, OSError => true
  | _, _ => false
  end.

(** Pure computations that may raise. *)
Definition obind {A B} (o : outcome A) (k : A -> outcome B) : outcome B :=
  match o with Ret a => k a | Raise e => Raise e end.

(** Computations over a mutable state [S]: the state is returned in
    both cases, so what was written before an exception stays written. *)
Definition M (S A : Type) : Type := S -> outcome A * S.

Definition ret {S A} (a : A) : M S A := fun s => (Ret a, s).
Definition raise {S A} (e : exn) : M S A := fun s => (Raise e, s).
Definition bind {S A B} (m : M S A) (k : A -> M S B) : M S B :=
  fun s => match m s with
           | (Ret a, s') => k a s'
           | (Raise e, s') => (Raise e, s')
           end.
Definition lift {S A} (o : outcome A) : M S A := fun s => (o, s).
Definition get {S} : M S S := fun s => (Ret s, s).
Definition put {S} (s : S) : M S unit := fun _ => (Ret tt, s).

Declare Scope monad_scope.
Delimit Scope monad_scope with monad.
Notation "x <- m ;; k" := (bind m (fun x => k))
  (at level 61, m at next level, right associativity) : monad_scope.
Notation "m ;; k" := (bind m (fun _ => k))
  (at level 61, right associativity) : monad_scope.

(** [for x in xs: body x], stopping at the first exception. *)
Fixpoint for_each {S A} (xs : list A) (body : A -> M S unit) : M S unit :=
  match xs with
  | [] => ret tt
  | x :: rest => bind (body x) (fun _ => for_each rest body)
  end.

(** [range(n)] for a Python integer [n]: empty when [n <= 0]. *)
Definition range (n : Z) : list nat := seq 0 (Z.to_nat n).

(* ================================================================== *)
(** ** Bytes and fixed-width integers *)

Definition byte_of_Z (z : Z) : byte :=
  match Byte.of_N (Z.to_N (z mod 256)) with
  | Some b => b
  | None => x00
  end.

Definition Z_of_byte (b : byte) : Z := Z.of_N (Byte.to_N b).

(** The [n] low-order bytes of [v], most significant first. *)
Fixpoint be_bytes (n : nat) (v : Z) : list byte :=
  match n with
  | O => []
  | S k => byte_of_Z (v / 256 ^ Z.of_nat k) :: be_bytes k v
  end.

(** The unsigned integer a byte string denotes, most significant first. *)
Definition be_value (bs : list byte) : Z :=
  fold_left (fun acc b => acc * 256 + Z_of_byte b) bs 0.

Inductive endianness : Type := BigEndian | LittleEndian.

Definition int_to_bytes (e : endianness) (n : nat) (v : Z) : list byte :=
  match e with
  | BigEndian => be_bytes n v
  | LittleEndian => rev (be_bytes n v)
  end.

Definition int_from_bytes (e : endianness) (bs : list byte) : Z :=
  match e with
  | BigEndian => be_value bs
  | LittleEndian => be_value (rev bs)
  end.

(* ================================================================== *)
(** ** The [struct] module, restricted to the formats the program uses *)

Module PyStruct.

(** Format characters: [B] (1 byte), [H] (2), [I] (4), [Q] (8), all
    unsigned. *)
Inductive code : Type := B | H | I | Q.

(** Byte-order prefix: ['!'] is network order with standard sizes and
    no alignment; no prefix is native order.  The only native format in
    the program is the single field ['I'], for which native alignment
    adds no padding. *)
Inductive prefix : Type := Network | Native.

Definition size (c : code) : nat :=
  match c with B => 1 | H => 2 | I => 4 | Q => 8 end%nat.

Definition calcsize (fmt : list code) : nat := list_sum (map size fmt).

Definition order (host : endianness) (p : prefix) : endianness :=
  match p with Network => BigEndian | Native => host end.

(** One field: the value must fit the field's width. *)
Definition pack_field (e : endianness) (c : code) (v : Z)
  : outcome (list byte) :=
  if (0 <=? v) && (v <? 256 ^ Z.of_nat (size c))
  then Ret (int_to_bytes e (size c) v)
  else Raise StructError.

Fixpoint pack_fields (e : endianness) (fmt : list code) (args : list Z)
  : outcome (list byte) :=
  match fmt, args with
  | [], [] => Ret []
  | c :: fmt', v :: args' =>
      obind (pack_field e c v) (fun bs =>
      obind (pack_fields e fmt' args') (fun rest => Ret (bs ++ rest)))
  | _, _ => Raise StructError
  end.

(** [struct.pack(fmt, *args)]: the number of arguments must be the
    number of fields. *)
Definition pack (host : endianness) (p : prefix) (fmt : list code)
           (args : list Z) : outcome (list byte) :=
  if Nat.eqb (length args) (length fmt)
  then pack_fields (order host p) fmt args
  else Raise StructError.

Fixpoint unpack_fields (e : endianness) (fmt : list code)
         (data : list byte) : list Z :=
  match fmt with
  | [] => []
  | c :: fmt' =>
      int_from_bytes e (firstn (size c) data)
        :: unpack_fields e fmt' (skipn (size c) data)
  end.

(** [struct.unpack(fmt, buffer)]: the buffer must have exactly
    [calcsize fmt] bytes. *)
Definition unpack (host : endianness) (p : prefix) (fmt : list code)
           (data : list byte) : outcome (list Z) :=
  if Nat.eqb (length data) (calcsize fmt)
  then Ret (unpack_fields (order host p) fmt data)
  else Raise StructError.

End PyStruct.

(* ================================================================== *)
(** ** Slices of an [mmap] object *)

Module Mmap.

Definition t : Type := list byte.

(** Python's adjustment of one slice bound against the length. *)
Definition adjust (len i : Z) : Z :=
  if i <? 0 then Z.max 0 (i + len) else Z.min i len.

(** Start offset and length of the slice [[start:stop]]. *)
Definition bounds (len start stop : Z) : nat * nat :=
  let s := adjust len start in
  let e := adjust len stop in
  (Z.to_nat s, Z.to_nat (e - s)).

(** [m[start:stop]] *)
Definition getslice (m : t) (start stop : Z) : list byte :=
  let '(s, n) := bounds (Z.of_nat (length m)) start stop in
  firstn n (skipn s m).

(** [m[start:stop] = data]: the sizes must agree. *)
Definition setslice (start stop : Z) (data : list byte) : M t unit :=
  fun m =>
    let '(s, n) := bounds (Z.of_nat (length m)) start stop in
    if Nat.eqb (length data) n
    then (Ret tt, firstn s m ++ data ++ skipn (s + n) m)
    else (Raise IndexError, m).

End Mmap.

(* ================================================================== *)
(** ** The shared-region codec ([twamp_daemon.py]) *)

Definition MAX_NEXTHOPS : Z := 1024.
Definition TWAMP_PORT : Z := 862.

(** The dictionary [read_nexthop] returns. *)
Record nexthop : Type := {
  addr : Z;
  active : Z;
  measured : Z;
  latency_ms : Z;
  last_updated : Z
}.

Section Codec.

(** Byte order of the machine the daemon runs on. *)
Variable host : endianness.

Local Open Scope monad_scope.

(** ['!IBBHIQ'] *)
Definition entry_format : list PyStruct.code :=
  [PyStruct.I; PyStruct.B; PyStruct.B; PyStruct.H; PyStruct.I; PyStruct.Q].

Definition read_nexthop_count : M Mmap.t Z :=
  let offset := 40 in
  m <- get ;;
  lift (obind (PyStruct.unpack host PyStruct.Native [PyStruct.I]
                               (Mmap.getslice m offset (offset + 4)))
              (fun vs => match vs with
                         | [count] => Ret count
                         | _ => Raise ValueError
                         end)).

Definition read_nexthop (index : Z) : M Mmap.t nexthop :=
  let entry_size := 24 in
  let base_offset := 40 + 12 in
  let offset := base_offset + index * entry_size in
  m <- get ;;
  let data := Mmap.getslice m offset (offset + entry_size) in
  lift (obind (PyStruct.unpack host PyStruct.Network entry_format data)
              (fun vs =>
                 (* addr, active, measured, pad1, pad2, latency,
                    last_updated = ... *)
                 match vs with
                 | [a; act; meas; _pad1; _pad2; lat; upd] =>
                     Ret {| addr := a; active := act; measured := meas;
                            latency_ms := lat; last_updated := upd |}
                 | _ => Raise ValueError
                 end)).

(** [now] is the reading [int(time.time())]. *)
Definition write_nexthop_latency (index : Z) (latency : Z) (now : Z)
  : M Mmap.t unit :=
  let entry_size := 24 in
  let base_offset := 40 + 12 in
  let offset := base_offset + index * entry_size in
  nh <- read_nexthop index ;;
  let measured := 1 in
  let last_updated := now in
  data <- lift (PyStruct.pack host PyStruct.Network entry_format
                     [addr nh; active nh; measured; 0; 0;
                      latency; last_updated]) ;;
  Mmap.setslice offset (offset + entry_size) data.

Definition mark_nexthop_failed (index : Z) : M Mmap.t unit :=
  let entry_size := 24 in
  let base_offset := 40 + 12 in
  let offset := base_offset + index * entry_size in
  nh <- read_nexthop index ;;
  let measured := 0 in
  let latency_ms := 0xFFFFFFFF in
  data <- lift (PyStruct.pack host PyStruct.Network entry_format
                     [addr nh; active nh; measured; 0; 0;
                      latency_ms; last_updated nh]) ;;
  Mmap.setslice offset (offset + entry_size) data.

End Codec.

(* ================================================================== *)
(** ** The probe burst ([measure_twamp_light]) *)

(** The Python values [measure_twamp_light] can hand back. *)
Inductive pyval : Type :=
| PyNone
| PyFloat (q : Q)
| PyPair (a b : pyval).       (* a 2-tuple *)

(** One call [sock.sendto(packet, (target_ip, port))]. *)
Record sendto_call : Type := {
  dest_ip : String.string;
  dest_port : Z;
  payload : list byte
}.

(** What the socket does during one loop iteration. *)
Inductive exchange : Type :=
| SendRaises (e : exn)        (* sendto raises *)
| RecvRaises (e : exn)        (* sendto returns, recvfrom raises *)
| Reply (data : list byte) (end_time : Q).
                              (* recvfrom returns data, then
                                 perf_counter() reads end_time *)

(** The readings and socket behaviour of one loop iteration. *)
Record probe_io : Type := {
  time_us : Z;        (* int(time.time() * 1_000_000) *)
  start_time : Q;     (* time.perf_counter() before the send *)
  exch : exchange
}.

(** The network as seen by one burst: whether the socket can be created
    and configured, and what happens at iteration [i] (0-based). *)
Record net : Type := {
  socket_opens : bool;
  io : nat -> probe_io
}.

(** The local variables of the burst that outlive an iteration, and the
    [sendto] calls made so far. *)
Record burst : Type := {
  rtts : list Q;
  sent : list sendto_call
}.

(** ['!IQQ'] *)
Definition probe_format : list PyStruct.code :=
  [PyStruct.I; PyStruct.Q; PyStruct.Q].

(** The packet built at iteration [i] (0-based) when the clock reads
    [timestamp]. *)
Definition probe_packet (i : nat) (timestamp : Z) : outcome (list byte) :=
  let seq_num := Z.of_nat i + 1 in
  PyStruct.pack BigEndian PyStruct.Network probe_format
                [seq_num; timestamp; 0].

Section Burst.

Variable w : net.
Variable target_ip : String.string.
Variable port : Z.

Local Open Scope monad_scope.

Definition record_send (packet : list byte) : M burst unit :=
  fun b => (Ret tt,
            {| rtts := rtts b;
               sent := sent b ++ [{| dest_ip := target_ip;
                                     dest_port := port;
                                     payload := packet |}] |}).

Definition append_rtt (rtt_ms : Q) : M burst unit :=
  fun b => (Ret tt, {| rtts := rtts b ++ [rtt_ms]; sent := sent b |}).

(** The inner [try] block. *)
Definition send_and_receive (packet : list byte) (p : probe_io)
  : M burst unit :=
  record_send packet ;;
  match exch p with
  | SendRaises e => raise e
  | RecvRaises e => raise e
  | Reply _ end_time =>
      let rtt_ms := ((end_time - start_time p) * 1000)%Q in
      append_rtt rtt_ms
  end.

(** [except socket.timeout: continue]; anything else propagates. *)
Definition catch_timeout (m : M burst unit) : M burst unit :=
  fun b => match m b with
           | (Raise SocketTimeout, b') => (Ret tt, b')
           | r => r
           end.

(** The body of [for i in range(count)]. *)
Definition probe_once (i : nat) : M burst unit :=
  let p := io w i in
  packet <- lift (probe_packet i (time_us p)) ;;
  catch_timeout (send_and_receive packet p).

(** The outer [try] block up to [sock.close()]. *)
Definition run_burst (count : Z) : M burst unit :=
  if socket_opens w
  then for_each (range count) probe_once
  else raise OSError.

(** [sum(xs)], over exact rationals: the rounding of binary64 addition
    is left out, so nothing below speaks about the digits of a sum. *)
Definition py_sum (xs : list Q) : Q := fold_left Qplus xs 0%Q.

(** Returns the value handed to the caller together with the [sendto]
    calls the burst made.  The [timeout] argument only configures the
    socket: it decides when the oracle answers [SocketTimeout]. *)
Definition measure_twamp_light (count : Z) : pyval * list sendto_call :=
  let '(r, b) := run_burst count {| rtts := []; sent := [] |} in
  (match r with
   | Ret _ =>
       match rtts b with
       | [] => PyNone
       | _ :: _ =>
           let avg_rtt :=
             (py_sum (rtts b) / inject_Z (Z.of_nat (length (rtts b))))%Q in
           PyFloat avg_rtt
       end
   | Raise _ => PyNone            (* except Exception: return None *)
   end, sent b).

End Burst.

(* ================================================================== *)
(** ** The measurement cycle ([run_measurement_cycle]) *)

(** [socket.inet_ntoa]: the four octets in decimal, separated by dots. *)
Definition dot : String.string :=
  String.String (Ascii.ascii_of_nat 46) String.EmptyString.

Definition inet_ntoa (packed : list byte) : String.string :=
  String.concat dot
    (map (fun b => DecimalString.NilZero.string_of_uint
                     (N.to_uint (Byte.to_N b))) packed).

Definition ip_to_string (ip_int : Z) : outcome String.string :=
  obind (PyStruct.pack BigEndian PyStruct.Network [PyStruct.I] [ip_int])
        (fun bs => Ret (inet_ntoa bs)).

(** [int(x)] for a float: truncation towards zero (of the exact
    rational; the rounding of the float that [x] comes from is left
    out). *)
Definition py_int (x : Q) : Z := Z.quot (Qnum x) (Zpos (Qden x)).

(** The daemon's state during a cycle: the mapped region, and one record
    per call of [measure_twamp_light] (entry index and the [sendto] calls
    that call made). *)
Record daemon : Type := {
  shm_map : Mmap.t;
  probes : list (nat * list sendto_call)
}.

(** What the outside world does during a cycle: the network seen by the
    burst for entry [i], and the reading [int(time.time())] taken when
    entry [i] is written. *)
Record world : Type := {
  net_of : nat -> net;
  time_s : nat -> Z
}.

Definition on_shm {A} (m : M Mmap.t A) : M daemon A :=
  fun d => let '(r, shm') := m (shm_map d) in
           (r, {| shm_map := shm'; probes := probes d |}).

Definition record_probe (i : nat) (calls : list sendto_call) : M daemon unit :=
  fun d => (Ret tt, {| shm_map := shm_map d;
                       probes := probes d ++ [(i, calls)] |}).

Section Cycle.

Variable host : endianness.
Variable w : world.

Local Open Scope monad_scope.

(** The body of [for i in range(count)].  ([measured_count] only feeds
    the final log line.) *)
Definition measure_entry (packet_count : Z) (i : nat) : M daemon unit :=
  nh <- on_shm (read_nexthop host (Z.of_nat i)) ;;
  if active nh =? 0 then ret tt          (* if not nh['active']: continue *)
  else
    ip_str <- lift (ip_to_string (addr nh)) ;;
    let '(latency, calls) :=
      measure_twamp_light (net_of w i) ip_str TWAMP_PORT packet_count in
    record_probe i calls ;;
    match latency with
    | PyFloat l =>
        let latency_ms := py_int (l + (1 # 2))%Q in
        on_shm (write_nexthop_latency host (Z.of_nat i) latency_ms
                                      (time_s w i))
    | PyNone => on_shm (mark_nexthop_failed host (Z.of_nat i))
    | PyPair _ _ => raise TypeError       (* latency + 0.5 *)
    end.

Definition run_measurement_cycle (packet_count : Z) : M daemon unit :=
  count <- on_shm (read_nexthop_count host) ;;
  if count =? 0 then ret tt
  else for_each (range count) (measure_entry packet_count).

End Cycle.

(* ================================================================== *)
(** ** The reflector's loop ([twamp_reflector.py]) *)

Module Reflector.

(** A peer: IPv4 address and UDP port. *)
Definition address : Type := (String.string * Z)%type.

(** What [sock.recvfrom(1024)] does: return a datagram (at most 1024
    bytes of it) and its sender, or raise. *)
Inductive recv_result : Type :=
| Received (data : list byte) (sender : address)
| RecvFails (e : exn).

(** One pass through the [while] body: the result of [recvfrom], the
    exception [sendto] raises if it is called, and whether a shutdown
    signal is delivered during the pass. *)
Record pass : Type := {
  recv : recv_result;
  send_fails : option exn;
  signalled : bool
}.

Record state : Type := {
  running : bool;
  packet_count : Z;
  echoed : list (list byte * address)     (* sendto(data, addr) calls *)
}.

Local Open Scope monad_scope.

Definition count_packet : M state unit :=
  fun s => (Ret tt, {| running := running s;
                       packet_count := packet_count s + 1;
                       echoed := echoed s |}).

Definition sendto (data : list byte) (a : address) (fails : option exn)
  : M state unit :=
  fun s => (match fails with None => Ret tt | Some e => Raise e end,
            {| running := running s;
               packet_count := packet_count s;
               echoed := echoed s ++ [(data, a)] |}).

(** The inner [try] block. *)
Definition receive_and_echo (p : pass) : M state unit :=
  match recv p with
  | RecvFails e => raise e
  | Received data a =>
      if Z.of_nat (length data) <? 20 then ret tt        (* continue *)
      else
        count_packet ;;
        _seq_num <- lift (obind (PyStruct.unpack BigEndian PyStruct.Network
                                                 [PyStruct.I] (firstn 4 data))
                                (fun vs => match vs with
                                           | v :: _ => Ret v
                                           | [] => Raise IndexError
                                           end)) ;;
        sendto data a (send_fails p)
  end.

(** Both handlers only log; the loop goes on. *)
Definition loop_body (p : pass) (s : state) : state :=
  snd (receive_and_echo p s).

Definition signal_handler (s : state) : state :=
  {| running := false;
     packet_count := packet_count s;
     echoed := echoed s |}.

Definition deliver (p : pass) (s : state) : state :=
  if signalled p then signal_handler s else s.

(** [while running: ...] over the passes the environment offers. *)
Fixpoint main_loop (ps : list pass) (s : state) : state :=
  match ps with
  | [] => s
  | p :: rest =>
      if running s then main_loop rest (deliver p (loop_body p s))
      else s
  end.

Definition start : state :=
  {| running := true; packet_count := 0; echoed := [] |}.

End Reflector.

(* ================================================================== *)
(** ** The daemon's entry point ([main] of [twamp_daemon.py]) *)

Module Daemon.

(** The parsed command line: [args.cycle] and [args.packets]. *)
Record args : Type := {
  cycle : Z;
  packets : Z
}.

(** When a shutdown signal reaches the process, relative to one pass of
    [while running]: not at all; before the test of [running] that
    would start the pass (for the first pass: after the handlers are
    installed and before the loop is entered); while the measurement
    cycle runs; or during the [k]-th call [time.sleep(1)] of the pause
    (counted from 0). *)
Inductive signal_time : Type :=
| NoSignal
| BeforeCycle
| DuringCycle
| DuringSleep (k : nat).

(** One pass of [while running]: the outside world seen by the cycle and
    the arrival of a signal. *)
Record round : Type := {
  round_world : world;
  signal : signal_time
}.

(** The process: the mapped region with the probe log, the global flag
    [running], the number of [time.sleep(1)] calls made by [main], and
    whether the [finally] block has closed the map. *)
Record process : Type := {
  mem : daemon;
  running : bool;
  slept : nat;
  closed : bool
}.

(** How [main] ends: [return code], an exception that leaves [main], or
    still inside [while running] when the rounds on offer run out. *)
Inductive ending : Type :=
| Exited (code : Z)
| Crashed (e : exn)
| StillRunning.

Definition signal_handler (p : process) : process :=
  {| mem := mem p; running := false; slept := slept p; closed := closed p |}.

Definition deliver_if (b : bool) (p : process) : process :=
  if b then signal_handler p else p.

Definition arrives_in_sleep (sig : signal_time) (j : nat) : bool :=
  match sig with
  | DuringSleep k => Nat.eqb k j
  | _ => false
  end.

Definition arrives_in_cycle (sig : signal_time) : bool :=
  match sig with
  | DuringCycle => true
  | _ => false
  end.

Definition arrives_before (sig : signal_time) : bool :=
  match sig with
  | BeforeCycle => true
  | _ => false
  end.

(** [time.sleep(1)], during which the signal may arrive. *)
Definition sleep_second (sig : signal_time) (j : nat) (p : process)
  : process :=
  deliver_if (arrives_in_sleep sig j)
    {| mem := mem p; running := running p; slept := S (slept p);
       closed := closed p |}.

(** [for _ in range(args.cycle): if not running: break; time.sleep(1)] *)
Fixpoint sleep_loop (sig : signal_time) (js : list nat) (p : process)
  : process :=
  match js with
  | [] => p
  | j :: rest =>
      if running p then sleep_loop sig rest (sleep_second sig j p)
      else p
  end.

(** [run_measurement_cycle(shm_map, args.packets)] on the process. *)
Definition cycle_on (host : endianness) (r : round) (n : Z)
  : M process unit :=
  fun p =>
    let '(res, d) := run_measurement_cycle host (round_world r) n (mem p) in
    (res, {| mem := d; running := running p; slept := slept p;
             closed := closed p |}).

(** The body of [while running].  A signal that lands while the cycle
    runs sets the flag whether the cycle returns or raises; the pause is
    only reached when the cycle returns. *)
Definition main_round (host : endianness) (a : args) (r : round)
  : M process unit :=
  fun p =>
    let '(res, p') := cycle_on host r (packets a) p in
    let p1 := deliver_if (arrives_in_cycle (signal r)) p' in
    match res with
    | Raise e => (Raise e, p1)
    | Ret _ =>
        (Ret tt,
         if running p1 then sleep_loop (signal r) (range (cycle a)) p1
         else p1)
    end.

(** [while running: ...] over the rounds on offer; [true] when the loop
    was left, [false] when the rounds ran out first.  A signal that
    lands before the test of [running] is seen by that test. *)
Fixpoint while_running (host : endianness) (a : args) (rounds : list round)
  : M process bool :=
  match rounds with
  | [] => fun p => (Ret (negb (running p)), p)
  | r :: rest =>
      fun p =>
        let p0 := deliver_if (arrives_before (signal r)) p in
        if running p0
        then bind (main_round host a r)
                  (fun _ => while_running host a rest) p0
        else (Ret true, p0)
  end.

(** [finally: shm_map.close(); shm_fd.close()] *)
Definition close (p : process) : process :=
  {| mem := mem p; running := running p; slept := slept p; closed := true |}.

(** [main], after argument parsing.  [shm] is what [open_shared_memory]
    finds: the content of the shared-memory file, or nothing when it
    cannot be opened.  The second component is the process state when
    [main] ends, if the region was mapped at all. *)
Definition main (host : endianness) (a : args) (shm : option Mmap.t)
           (rounds : list round) : ending * option process :=
  if cycle a <? 10 then (Exited 1, None)
  else if (packets a <? 1) || (packets a >? 100) then (Exited 1, None)
  else
    match shm with
    | None => (Exited 1, None)
    | Some m =>
        let p0 := {| mem := {| shm_map := m; probes := [] |};
                     running := true; slept := 0; closed := false |} in
        match while_running host a rounds p0 with
        | (Ret true, p) => (Exited 0, Some (close p))
        | (Ret false, p) => (StillRunning, Some p)
        | (Raise e, p) => (Crashed e, Some (close p))
        end
    end.

End Daemon.

(* ================================================================== *)
(** * Vocabulary of the statements *)

(** ** Regions as the routing process lays them out *)

Definition zeros (n : Z) : list byte := repeat x00 (Z.to_nat n).

(** Entry bytes as the C structure holds them: addr(4), active(1),
    measured(1), padding(2), latency_ms(4), alignment gap(4),
    last_updated(8). *)
Definition sample_entry (a0 a1 a2 a3 : byte) (act : byte) : list byte :=
  [a0; a1; a2; a3] ++ [act; x00; x00; x00]
  ++ [xff; xff; xff; xff] ++ zeros 4 ++ zeros 8.

(** A full-size region (40 + 12 + 1024 * 24 bytes) written on a
    little-endian host: [nh_count = 2], entry 0 is 10.0.0.1 and active,
    entry 1 is 10.0.0.2 and inactive, the remaining slots are zero. *)
Definition sample_region : Mmap.t :=
  zeros 40 ++ [x02; x00; x00; x00] ++ zeros 8
  ++ sample_entry x0a x00 x00 x01 x01
  ++ sample_entry x0a x00 x00 x02 x00
  ++ zeros (1022 * 24).

(** The same header with [nh_count = 0]. *)
Definition empty_region : Mmap.t :=
  zeros 40 ++ [x00; x00; x00; x00] ++ zeros 8 ++ zeros (1024 * 24).

(** A full-size region, written on a little-endian host, whose single
    entry (10.0.0.1, active) carries a successful measurement:
    [measured = 1], [latency_ms = 5]. *)
Definition measured_region : Mmap.t :=
  zeros 40 ++ [x01; x00; x00; x00] ++ zeros 8
  ++ ([x0a; x00; x00; x01] ++ [x01; x01; x00; x00]
      ++ [x00; x00; x00; x05] ++ zeros 4 ++ zeros 8)
  ++ zeros (1023 * 24).

(** The [active] field of entry [i], located by the record layout
    (offset 4 inside the 24-byte entry). *)
Definition active_byte (m : Mmap.t) (i : nat) : option byte :=
  nth_error m (52 + 24 * i + 4).

(** ** Dotted quads *)

(** One octet in decimal, as [inet_ntoa] prints it. *)
Definition octet (b : byte) : String.string :=
  DecimalString.NilZero.string_of_uint (N.to_uint (Byte.to_N b)).

(** The number a printed octet denotes. *)
Definition octet_value (s : String.string) : option N :=
  option_map N.of_uint (DecimalString.NilZero.uint_of_string s).

(** A string without a dot. *)
Fixpoint no_dot (s : String.string) : Prop :=
  match s with
  | String.EmptyString => True
  | String.String c rest => c <> Ascii.ascii_of_nat 46 /\ no_dot rest
  end.

(** ** Probe packets *)

(** The three fields of a 20-byte probe, decoded big-endian. *)
Definition probe_sequence (pkt : list byte) : Z := be_value (firstn 4 pkt).
Definition probe_timestamp (pkt : list byte) : Z :=
  be_value (firstn 8 (skipn 4 pkt)).
Definition probe_reserved (pkt : list byte) : Z :=
  be_value (firstn 8 (skipn 12 pkt)).

Definition probe_layout (pkt : list byte) (seq_num timestamp : Z) : Prop :=
  length pkt = 20%nat
  /\ probe_sequence pkt = seq_num
  /\ probe_timestamp pkt = timestamp
  /\ probe_reserved pkt = 0.

(** ** Bursts *)

(** A socket-level error: [sendto] or [recvfrom] raises something other
    than [socket.timeout]. *)
Definition socket_error (p : probe_io) : bool :=
  match exch p with
  | SendRaises e | RecvRaises e => negb (exn_eqb e SocketTimeout)
  | Reply _ _ => false
  end.

(** The RTT sample an iteration contributes, if its reply arrives. *)
Definition sample (p : probe_io) : list Q :=
  match exch p with
  | Reply _ end_time => [((end_time - start_time p) * 1000)%Q]
  | _ => []
  end.

(** The samples of a burst of [count] packets that is not cut short. *)
Definition samples (w : net) (count : Z) : list Q :=
  flat_map (fun i => sample (io w i)) (range count).

(** The clock readings of the first [count] iterations fit 64 bits. *)
Definition clock_fits (w : net) (count : Z) : Prop :=
  forall i, Z.of_nat i < count -> 0 <= time_us (io w i) < 2 ^ 64.

(** A network on which the socket opens, the clock reads a fixed
    microsecond count, the second packet of a burst times out and every
    other packet is answered after 2 ms. *)
Definition lossy_net : net :=
  {| socket_opens := true;
     io := fun i =>
             {| time_us := 1700000000000000;
                start_time := 0;
                exch := match i with
                        | 1%nat => RecvRaises SocketTimeout
                        | _ => Reply [] (2 # 1000)
                        end |} |}.

Definition localhost : String.string := inet_ntoa [x7f; x00; x00; x01].

(** The arithmetic mean, as Python computes it: [sum(xs) / len(xs)]. *)
Definition mean (xs : list Q) : Q :=
  (py_sum xs / inject_Z (Z.of_nat (length xs)))%Q.

(** The return value section 4.2 of the specification describes: the
    pair of the mean RTT and the loss fraction. *)
Definition mean_and_loss (w : net) (count : Z) : pyval :=
  let s := samples w count in
  PyPair (PyFloat (mean s))
         (PyFloat ((inject_Z count - inject_Z (Z.of_nat (length s)))
                   / inject_Z count)%Q).

(** ** The burst as a trace *)

Definition call_with (target_ip : String.string) (port : Z)
           (pkt : list byte) : sendto_call :=
  {| dest_ip := target_ip; dest_port := port; payload := pkt |}.

(** What iteration [i] does, independently of what came before. *)
Definition step_result (w : net) (i : nat) : outcome unit :=
  match probe_packet i (time_us (io w i)) with
  | Raise e => Raise e
  | Ret _ =>
      match exch (io w i) with
      | SendRaises e | RecvRaises e =>
          if exn_eqb e SocketTimeout then Ret tt else Raise e
      | Reply _ _ => Ret tt
      end
  end.

Definition step_rtts (w : net) (i : nat) : list Q :=
  match probe_packet i (time_us (io w i)) with
  | Raise _ => []
  | Ret _ => sample (io w i)
  end.

Definition step_calls (w : net) (target_ip : String.string) (port : Z)
           (i : nat) : list sendto_call :=
  match probe_packet i (time_us (io w i)) with
  | Raise _ => []
  | Ret pkt => [call_with target_ip port pkt]
  end.

(** Outcome, new samples and new [sendto] calls of the loop over the
    iterations [idxs]. *)
Fixpoint burst_trace (w : net) (target_ip : String.string) (port : Z)
         (idxs : list nat)
  : outcome unit * (list Q * list sendto_call) :=
  match idxs with
  | [] => (Ret tt, ([], []))
  | i :: rest =>
      match step_result w i with
      | Ret _ =>
          let '(r, (rs, ss)) := burst_trace w target_ip port rest in
          (r, (step_rtts w i ++ rs, step_calls w target_ip port i ++ ss))
      | Raise e =>
          (Raise e, (step_rtts w i, step_calls w target_ip port i))
      end
  end.

(** ** The reflector's obligations *)

Module ReflectorSpec.
Import Reflector.

(** What [recvfrom(1024)] hands to the program for a datagram on the
    wire: at most its first 1024 bytes. *)
Definition recvfrom_1024 (datagram : list byte) (sender : address)
  : recv_result :=
  Received (firstn 1024 datagram) sender.

(** The reply one pass owes: the datagram itself when it has at least
    20 bytes, nothing otherwise. *)
Definition echo_of (p : pass) : list (list byte * address) :=
  match recv p with
  | Received data a =>
      if Z.of_nat (length data) <? 20 then [] else [(data, a)]
  | RecvFails _ => []
  end.

(** The passes the loop goes through: up to and including the first one
    during which a shutdown signal arrives. *)
Fixpoint listened (ps : list pass) : list pass :=
  match ps with
  | [] => []
  | p :: rest => p :: (if signalled p then [] else listened rest)
  end.

Definition probe20 : list byte := be_bytes 4 1 ++ be_bytes 8 7 ++ be_bytes 8 0.
Definition peer : address := (localhost, 40000).

End ReflectorSpec.

(* ================================================================== *)
(** * Properties *)

(** ** The monad *)

Lemma bind_raise {S A B} (m : M S A) (k : A -> M S B) (e : exn) (s s' : S) :
  m s = (Raise e, s') -> bind m k s = (Raise e, s').
Proof. intros E. unfold bind. now rewrite E. Qed.

Lemma bind_ret {S A B} (m : M S A) (k : A -> M S B) (a : A) (s s' : S) :
  m s = (Ret a, s') -> bind m k s = k a s'.
Proof. intros E. unfold bind. now rewrite E. Qed.

Lemma for_each_app {S A} (xs ys : list A) (body : A -> M S unit) (s : S) :
  for_each (xs ++ ys) body s
  = bind (for_each xs body) (fun _ => for_each ys body) s.
Proof.
  revert s. induction xs as [|x xs IH]; intros s; simpl.
  - reflexivity.
  - unfold bind. destruct (body x s) as [[[]|e] s1].
    + rewrite IH. reflexivity.
    + reflexivity.
Qed.

Lemma range_nonempty (n : Z) :
  0 < n -> exists rest, range n = 0%nat :: rest.
Proof.
  intros Hn. unfold range.
  destruct (Z.to_nat n) as [|k] eqn:E; [lia|].
  exists (seq 1 k). reflexivity.
Qed.

(** ** The codec: decoding an entry never succeeds *)

(** The format ['!IBBHIQ'] describes 20 bytes and 6 values. *)
Lemma entry_format_size : PyStruct.calcsize entry_format = 20%nat.
Proof. reflexivity. Qed.

Lemma entry_format_fields : length entry_format = 6%nat.
Proof. reflexivity. Qed.

(** A 24-byte slice is refused by [unpack]; a 20-byte one yields six
    values where the assignment expects seven. *)
Lemma read_nexthop_aborts (host : endianness) (index : Z) (m : Mmap.t) :
  read_nexthop host index m
  = (Raise (if Nat.eqb (length (Mmap.getslice m (52 + index * 24)
                                              (52 + index * 24 + 24))) 20
            then ValueError else StructError), m).
Proof.
  unfold read_nexthop, bind, get, lift, PyStruct.unpack.
  change (40 + 12) with 52.
  rewrite entry_format_size.
  destruct (Nat.eqb _ 20); reflexivity.
Qed.

Lemma write_nexthop_latency_aborts (host : endianness) (index l now : Z)
      (m : Mmap.t) :
  exists e, write_nexthop_latency host index l now m = (Raise e, m).
Proof.
  eexists. unfold write_nexthop_latency.
  apply bind_raise, read_nexthop_aborts.
Qed.

Lemma mark_nexthop_failed_aborts (host : endianness) (index : Z)
      (m : Mmap.t) :
  exists e, mark_nexthop_failed host index m = (Raise e, m).
Proof.
  eexists. unfold mark_nexthop_failed.
  apply bind_raise, read_nexthop_aborts.
Qed.

(** Even with a decoded entry in hand, the write-back could not be
    encoded: seven arguments are offered to a six-field format. *)
Lemma entry_pack_refused (host : endianness) (a b c d e f g : Z) :
  PyStruct.pack host PyStruct.Network entry_format [a; b; c; d; e; f; g]
  = Raise StructError.
Proof. reflexivity. Qed.

(** Length of a slice that lies inside the region. *)
Lemma getslice_length_inside (m : Mmap.t) (start n : Z) :
  0 <= start -> 0 <= n -> start + n <= Z.of_nat (length m) ->
  length (Mmap.getslice m start (start + n)) = Z.to_nat n.
Proof.
  intros Hs Hn Hfit.
  unfold Mmap.getslice, Mmap.bounds, Mmap.adjust.
  destruct (start <? 0) eqn:E1; [apply Z.ltb_lt in E1; lia|].
  destruct (start + n <? 0) eqn:E2; [apply Z.ltb_lt in E2; lia|].
  rewrite length_firstn, length_skipn. lia.
Qed.

(** On a region that holds entry [index] in full, the exception is
    [struct.error]. *)
Lemma read_nexthop_struct_error (host : endianness) (index : Z) (m : Mmap.t) :
  0 <= index -> 52 + index * 24 + 24 <= Z.of_nat (length m) ->
  read_nexthop host index m = (Raise StructError, m).
Proof.
  intros Hi Hfit. rewrite read_nexthop_aborts.
  rewrite getslice_length_inside by lia. reflexivity.
Qed.

Lemma zeros_length (n : Z) : 0 <= n -> Z.of_nat (length (zeros n)) = n.
Proof. intros Hn. unfold zeros. rewrite repeat_length. lia. Qed.

Lemma sample_region_length : Z.of_nat (length sample_region) = 24628.
Proof.
  unfold sample_region, sample_entry.
  repeat rewrite length_app. repeat rewrite Nat2Z.inj_add.
  repeat rewrite zeros_length by lia. reflexivity.
Qed.

(** ** Slice assignment *)

(** A slice assignment keeps the length of the region. *)
Lemma setslice_length (start stop : Z) (data : list byte) (m : Mmap.t) :
  length (snd (Mmap.setslice start stop data m)) = length m.
Proof.
  unfold Mmap.setslice, Mmap.bounds, Mmap.adjust.
  destruct (Nat.eqb _ _) eqn:E; [|reflexivity].
  apply Nat.eqb_eq in E. cbn [snd].
  rewrite !length_app, length_firstn, length_skipn, E.
  destruct (start <? 0) eqn:E1; destruct (stop <? 0) eqn:E2; lia.
Qed.

(** A slice assignment with bounds [0 <= start <= stop] changes no byte
    outside [[start, stop)]. *)
Lemma setslice_frame (start stop : Z) (data : list byte) (m : Mmap.t)
      (p : nat) :
  0 <= start <= stop ->
  ~ (start <= Z.of_nat p < stop) ->
  nth_error (snd (Mmap.setslice start stop data m)) p = nth_error m p.
Proof.
  intros Hb Hout.
  unfold Mmap.setslice, Mmap.bounds, Mmap.adjust.
  destruct (start <? 0) eqn:E1; [apply Z.ltb_lt in E1; lia|].
  destruct (stop <? 0) eqn:E2; [apply Z.ltb_lt in E2; lia|].
  destruct (Nat.eqb _ _) eqn:E; [|reflexivity].
  apply Nat.eqb_eq in E. cbn [snd].
  set (s := Z.to_nat (Z.min start (Z.of_nat (length m)))) in *.
  set (n := Z.to_nat (Z.min stop (Z.of_nat (length m))
                      - Z.min start (Z.of_nat (length m)))) in *.
  destruct (Nat.ltb p s) eqn:Hp.
  - apply Nat.ltb_lt in Hp.
    rewrite nth_error_app1 by (rewrite length_firstn; lia).
    rewrite nth_error_firstn.
    apply Nat.ltb_lt in Hp. now rewrite Hp.
  - apply Nat.ltb_ge in Hp.
    destruct (Nat.ltb p (s + n)) eqn:Hq.
    + apply Nat.ltb_lt in Hq. lia.
    + apply Nat.ltb_ge in Hq.
      rewrite nth_error_app2 by (rewrite length_firstn; lia).
      rewrite nth_error_app2 by (rewrite length_firstn; lia).
      rewrite nth_error_skipn, length_firstn, E. f_equal. lia.
Qed.

(** ** Claims about the codec *)

(** C1 (the code does not do this).  The claim: a latency write followed
    by a read of the same entry returns the entry with [measured] set and
    the latency stored.  On the code, at the full-size sample region,
    entry 0, latency 5: [write_nexthop_latency] raises [struct.error]
    while decoding the entry and leaves the region as it was, and the
    following [read_nexthop] raises [struct.error] too; no entry is ever
    returned. *)
Theorem write_then_read_raises :
  write_nexthop_latency LittleEndian 0 5 1700000000 sample_region
  = (Raise StructError, sample_region)
  /\ read_nexthop LittleEndian 0 sample_region
     = (Raise StructError, sample_region).
Proof.
  assert (R : read_nexthop LittleEndian 0 sample_region
              = (Raise StructError, sample_region)).
  { apply read_nexthop_struct_error; [lia|].
    rewrite sample_region_length. lia. }
  split; [|exact R].
  unfold write_nexthop_latency. now apply bind_raise.
Qed.

(** C2 (the code does not do this).  The claim: marking an entry failed
    and reading it back returns the entry with [measured] cleared and the
    latency at [0xFFFFFFFF].  On the code, at the full-size sample region
    and entry 0: [mark_nexthop_failed] raises [struct.error] while
    decoding the entry, the region is left as it was, and the following
    [read_nexthop] raises as well. *)
Theorem mark_failed_then_read_raises :
  mark_nexthop_failed LittleEndian 0 sample_region
  = (Raise StructError, sample_region)
  /\ read_nexthop LittleEndian 0 sample_region
     = (Raise StructError, sample_region).
Proof.
  assert (R : read_nexthop LittleEndian 0 sample_region
              = (Raise StructError, sample_region)).
  { apply read_nexthop_struct_error; [lia|].
    rewrite sample_region_length. lia. }
  split; [|exact R].
  unfold mark_nexthop_failed. now apply bind_raise.
Qed.

(** Neither write ever completes, whatever the region, the index and the
    value: the decoding step raises first. *)
Lemma codec_write_never_returns (host : endianness) (index l now : Z)
      (m : Mmap.t) :
  is_raise (fst (write_nexthop_latency host index l now m)) = true
  /\ is_raise (fst (mark_nexthop_failed host index m)) = true.
Proof.
  destruct (write_nexthop_latency_aborts host index l now m) as [e1 E1].
  destruct (mark_nexthop_failed_aborts host index m) as [e2 E2].
  rewrite E1, E2. split; reflexivity.
Qed.

(** C4.  Frame of the two writes: every byte of the region outside the
    24 bytes of entry [index] (offsets 52 + 24 * index up to
    52 + 24 * index + 24), the 52 header bytes included, is the same
    after [write_nexthop_latency] and after [mark_nexthop_failed] as
    before, and the region keeps its length.  (Both calls raise before
    their slice assignment, so the bytes of entry [index] are unchanged as
    well.) *)
Theorem codec_write_frame (host : endianness) (index l now : Z)
        (m : Mmap.t) (p : nat) :
  ~ (52 + 24 * index <= Z.of_nat p < 52 + 24 * index + 24) ->
  let after_write := snd (write_nexthop_latency host index l now m) in
  let after_mark := snd (mark_nexthop_failed host index m) in
  nth_error after_write p = nth_error m p
  /\ nth_error after_mark p = nth_error m p
  /\ length after_write = length m
  /\ length after_mark = length m.
Proof.
  intros _.
  destruct (write_nexthop_latency_aborts host index l now m) as [e1 E1].
  destruct (mark_nexthop_failed_aborts host index m) as [e2 E2].
  cbv zeta. rewrite E1, E2. simpl. auto.
Qed.

Lemma codec_write_frame_witness :
  ~ (52 + 24 * 1 <= Z.of_nat 40 < 52 + 24 * 1 + 24)
  /\ nth_error (snd (write_nexthop_latency LittleEndian 1 7 1700000000
                                           sample_region)) 40
     = nth_error sample_region 40.
Proof.
  split; [lia|].
  apply (codec_write_frame LittleEndian 1 7 1700000000 sample_region 40).
  lia.
Defined.

Lemma measured_region_length : Z.of_nat (length measured_region) = 24628.
Proof.
  unfold measured_region.
  repeat rewrite length_app. repeat rewrite Nat2Z.inj_add.
  repeat rewrite zeros_length by lia. reflexivity.
Qed.

(** C10 (the code does not do this).  The claim: a second
    [mark_nexthop_failed] re-reads the entry the first one marked failed
    and writes the same 24 bytes again.  On the code, at the full-size
    region whose entry 0 is measured with latency 5: the first call
    raises [struct.error] while decoding the entry and writes nothing,
    so the entry is never marked failed (its [measured] byte is still 1
    and its latency still 5); the second call, run after the first or
    on the region the first leaves behind, raises in the same way. *)
Theorem mark_failed_twice_raises :
  mark_nexthop_failed LittleEndian 0 measured_region
  = (Raise StructError, measured_region)
  /\ bind (mark_nexthop_failed LittleEndian 0)
          (fun _ => mark_nexthop_failed LittleEndian 0) measured_region
     = (Raise StructError, measured_region)
  /\ mark_nexthop_failed LittleEndian 0
       (snd (mark_nexthop_failed LittleEndian 0 measured_region))
     = (Raise StructError, measured_region)
  /\ nth_error measured_region 57 = Some x01
  /\ firstn 4 (skipn 60 measured_region) = [x00; x00; x00; x05].
Proof.
  assert (R : read_nexthop LittleEndian 0 measured_region
              = (Raise StructError, measured_region)).
  { apply read_nexthop_struct_error; [lia|].
    rewrite measured_region_length. lia. }
  assert (E : mark_nexthop_failed LittleEndian 0 measured_region
              = (Raise StructError, measured_region)).
  { unfold mark_nexthop_failed. now apply bind_raise. }
  split; [exact E|]. split; [now apply bind_raise|].
  split; [rewrite E; exact E|].
  split; reflexivity.
Qed.

(** ** Fixed-width big-endian integers *)

Lemma Z_of_byte_of_Z (z : Z) : Z_of_byte (byte_of_Z z) = z mod 256.
Proof.
  unfold Z_of_byte, byte_of_Z.
  assert (Hr : 0 <= z mod 256 < 256) by (apply Z.mod_pos_bound; lia).
  destruct (Byte.of_N (Z.to_N (z mod 256))) as [b|] eqn:E.
  - apply Byte.to_of_N in E. rewrite E. lia.
  - apply Byte.of_N_None_iff in E. lia.
Qed.

Lemma be_bytes_length (n : nat) (v : Z) : length (be_bytes n v) = n.
Proof. induction n; simpl; auto. Qed.

Lemma be_fold_bytes (n : nat) (v acc : Z) :
  fold_left (fun a b => a * 256 + Z_of_byte b) (be_bytes n v) acc
  = acc * 256 ^ Z.of_nat n + v mod 256 ^ Z.of_nat n.
Proof.
  revert acc. induction n as [|k IH]; intros acc.
  - simpl. rewrite Z.mod_1_r. lia.
  - cbn [be_bytes fold_left]. rewrite IH, Z_of_byte_of_Z.
    rewrite Nat2Z.inj_succ, Z.pow_succ_r by lia.
    rewrite (Z.mul_comm 256 (256 ^ Z.of_nat k)).
    rewrite (Z.rem_mul_r v (256 ^ Z.of_nat k) 256) by lia.
    ring.
Qed.

(** Decoding undoes encoding for every value that fits the width. *)
Lemma be_value_bytes (n : nat) (v : Z) :
  0 <= v < 256 ^ Z.of_nat n -> be_value (be_bytes n v) = v.
Proof.
  intros Hv. unfold be_value. rewrite be_fold_bytes.
  rewrite Z.mod_small by lia. lia.
Qed.

Lemma pack_field_inv (e : endianness) (c : PyStruct.code) (v : Z)
      (bs : list byte) :
  PyStruct.pack_field e c v = Ret bs ->
  0 <= v < 256 ^ Z.of_nat (PyStruct.size c)
  /\ bs = int_to_bytes e (PyStruct.size c) v.
Proof.
  unfold PyStruct.pack_field.
  destruct (0 <=? v) eqn:E1; destruct (v <? 256 ^ _) eqn:E2;
    simpl; try discriminate.
  intros [= <-]. apply Z.leb_le in E1. apply Z.ltb_lt in E2. auto.
Qed.

Lemma pack_field_fits (e : endianness) (c : PyStruct.code) (v : Z) :
  0 <= v < 256 ^ Z.of_nat (PyStruct.size c) ->
  PyStruct.pack_field e c v = Ret (int_to_bytes e (PyStruct.size c) v).
Proof.
  intros [H1 H2]. unfold PyStruct.pack_field.
  apply Z.leb_le in H1. apply Z.ltb_lt in H2. now rewrite H1, H2.
Qed.

(** ** The probe packet *)

Lemma probe_packet_inv (i : nat) (ts : Z) (pkt : list byte) :
  probe_packet i ts = Ret pkt ->
  0 <= ts < 2 ^ 64 /\ Z.of_nat i + 1 < 2 ^ 32
  /\ pkt = be_bytes 4 (Z.of_nat i + 1) ++ be_bytes 8 ts ++ be_bytes 8 0.
Proof.
  unfold probe_packet, PyStruct.pack, probe_format.
  cbn [length Nat.eqb PyStruct.pack_fields PyStruct.order].
  destruct (PyStruct.pack_field BigEndian PyStruct.I (Z.of_nat i + 1))
    as [b1|] eqn:E1; cbn [obind]; [|discriminate].
  destruct (PyStruct.pack_field BigEndian PyStruct.Q ts)
    as [b2|] eqn:E2; cbn [obind]; [|discriminate].
  destruct (PyStruct.pack_field BigEndian PyStruct.Q 0)
    as [b3|] eqn:E3; cbn [obind]; [|discriminate].
  intros [= <-].
  apply pack_field_inv in E1, E2, E3.
  destruct E1 as [R1 ->], E2 as [R2 ->], E3 as [_ ->].
  rewrite app_nil_r.
  change (Z.of_nat (PyStruct.size PyStruct.I)) with 4 in R1.
  change (Z.of_nat (PyStruct.size PyStruct.Q)) with 8 in R2.
  repeat split; try reflexivity; lia.
Qed.

Lemma probe_packet_fits (i : nat) (ts : Z) :
  0 <= ts < 2 ^ 64 -> Z.of_nat i + 1 < 2 ^ 32 ->
  probe_packet i ts
  = Ret (be_bytes 4 (Z.of_nat i + 1) ++ be_bytes 8 ts ++ be_bytes 8 0).
Proof.
  intros Hts Hi.
  unfold probe_packet, PyStruct.pack, probe_format.
  cbn [length Nat.eqb PyStruct.pack_fields PyStruct.order].
  rewrite (pack_field_fits BigEndian PyStruct.I)
    by (change (Z.of_nat (PyStruct.size PyStruct.I)) with 4; lia).
  rewrite !(pack_field_fits BigEndian PyStruct.Q)
    by (change (Z.of_nat (PyStruct.size PyStruct.Q)) with 8; lia).
  cbn [obind]. now rewrite app_nil_r.
Qed.

Lemma probe_bytes_layout (s ts : Z) :
  0 <= s < 2 ^ 32 -> 0 <= ts < 2 ^ 64 ->
  probe_layout (be_bytes 4 s ++ be_bytes 8 ts ++ be_bytes 8 0) s ts.
Proof.
  intros Hs Hts.
  unfold probe_layout, probe_sequence, probe_timestamp, probe_reserved.
  split; [|split; [|split]].
  - rewrite !length_app, !be_bytes_length. reflexivity.
  - change (firstn 4 (be_bytes 4 s ++ be_bytes 8 ts ++ be_bytes 8 0))
      with (be_bytes 4 s).
    apply be_value_bytes. lia.
  - change (firstn 8 (skipn 4 (be_bytes 4 s ++ be_bytes 8 ts
                                 ++ be_bytes 8 0)))
      with (be_bytes 8 ts).
    apply be_value_bytes. lia.
  - reflexivity.
Qed.

(** ** The burst as a trace *)

Section BurstTrace.

Variable w : net.
Variable target_ip : String.string.
Variable port : Z.

Lemma probe_once_effect (i : nat) (b : burst) :
  probe_once w target_ip port i b
  = (step_result w i, {| rtts := rtts b ++ step_rtts w i;
                       sent := sent b ++ step_calls w target_ip port i |}).
Proof.
  unfold probe_once, step_result, step_rtts, step_calls, sample.
  unfold bind, lift, catch_timeout, send_and_receive, bind, record_send.
  destruct b as [rs ss].
  destruct (probe_packet i (time_us (io w i))) as [pkt|e]; cbn.
  - destruct (exch (io w i)) as [e|e|data t]; cbn;
      try (destruct e; cbn); rewrite ?app_nil_r; reflexivity.
  - rewrite !app_nil_r. reflexivity.
Qed.

Lemma for_each_trace (idxs : list nat) (b : burst) :
  for_each idxs (probe_once w target_ip port) b
  = (fst (burst_trace w target_ip port idxs),
     {| rtts := rtts b ++ fst (snd (burst_trace w target_ip port idxs));
        sent := sent b ++ snd (snd (burst_trace w target_ip port idxs)) |}).
Proof.
  revert b. induction idxs as [|i rest IH]; intros b.
  - destruct b. cbn. rewrite !app_nil_r. reflexivity.
  - cbn [for_each burst_trace]. unfold bind.
    rewrite probe_once_effect.
    destruct (step_result w i) as [[]|e].
    + rewrite IH. destruct (burst_trace w target_ip port rest) as [r [rs ss]].
      cbn. rewrite !app_assoc. reflexivity.
    + reflexivity.
Qed.

(** The value returned and the calls made, read off the trace. *)
Lemma measure_by_trace (count : Z) :
  socket_opens w = true ->
  measure_twamp_light w target_ip port count
  = (match fst (burst_trace w target_ip port (range count)) with
     | Ret _ =>
         match fst (snd (burst_trace w target_ip port (range count))) with
         | [] => PyNone
         | _ :: _ =>
             let rs := fst (snd (burst_trace w target_ip port (range count))) in
             PyFloat (py_sum rs / inject_Z (Z.of_nat (length rs)))%Q
         end
     | Raise _ => PyNone
     end, snd (snd (burst_trace w target_ip port (range count)))).
Proof.
  intros Hs. unfold measure_twamp_light, run_burst. rewrite Hs.
  rewrite for_each_trace. cbn [rtts sent app]. reflexivity.
Qed.

Lemma measure_socket_fails (count : Z) :
  socket_opens w = false ->
  measure_twamp_light w target_ip port count = (PyNone, []).
Proof.
  intros Hs. unfold measure_twamp_light, run_burst. rewrite Hs.
  reflexivity.
Qed.

(** An iteration that does not raise made exactly one call. *)
Lemma step_ok_calls (i : nat) :
  step_result w i = Ret tt ->
  exists pkt, probe_packet i (time_us (io w i)) = Ret pkt
              /\ step_calls w target_ip port i = [call_with target_ip port pkt]
              /\ step_rtts w i = sample (io w i).
Proof.
  unfold step_result, step_calls, step_rtts.
  destruct (probe_packet i (time_us (io w i))) as [pkt|e];
    [|discriminate].
  intros _. exists pkt. auto.
Qed.

Lemma step_calls_short (i : nat) :
  (length (step_calls w target_ip port i) <= 1)%nat.
Proof.
  unfold step_calls. destruct (probe_packet _ _); simpl; lia.
Qed.

(** A loop in which no iteration raises. *)
Lemma burst_trace_all_ok (idxs : list nat) :
  (forall i, In i idxs -> step_result w i = Ret tt) ->
  burst_trace w target_ip port idxs
  = (Ret tt, (flat_map (fun i => sample (io w i)) idxs,
              flat_map (step_calls w target_ip port) idxs)).
Proof.
  induction idxs as [|i rest IH]; intros Hok.
  - reflexivity.
  - cbn [burst_trace flat_map].
    destruct (step_ok_calls i (Hok i (or_introl eq_refl)))
      as (pkt & _ & _ & Hr).
    rewrite (Hok i (or_introl eq_refl)), IH, Hr
      by (intros j Hj; apply Hok; now right).
    reflexivity.
Qed.

Lemma flat_map_step_calls_length (idxs : list nat) :
  (forall i, In i idxs -> step_result w i = Ret tt) ->
  length (flat_map (step_calls w target_ip port) idxs) = length idxs.
Proof.
  induction idxs as [|i rest IH]; intros Hok.
  - reflexivity.
  - cbn [flat_map]. rewrite length_app, IH
      by (intros j Hj; apply Hok; now right).
    destruct (step_ok_calls i (Hok i (or_introl eq_refl)))
      as (pkt & _ & Hc & _).
    rewrite Hc. reflexivity.
Qed.

(** With a packable sequence number and clock reading, an iteration
    raises exactly on a socket-level error. *)
Lemma step_result_ok (i : nat) :
  0 <= time_us (io w i) < 2 ^ 64 -> Z.of_nat i + 1 < 2 ^ 32 ->
  socket_error (io w i) = false -> step_result w i = Ret tt.
Proof.
  intros Hts Hi. unfold step_result, socket_error.
  rewrite probe_packet_fits by assumption.
  destruct (exch (io w i)) as [e|e|d t]; try reflexivity;
    destruct e; simpl; congruence.
Qed.

Lemma step_result_error (i : nat) :
  0 <= time_us (io w i) < 2 ^ 64 -> Z.of_nat i + 1 < 2 ^ 32 ->
  socket_error (io w i) = true -> exists e, step_result w i = Raise e.
Proof.
  intros Hts Hi. unfold step_result, socket_error.
  rewrite probe_packet_fits by assumption.
  destruct (exch (io w i)) as [e|e|d t]; try discriminate;
    destruct e; simpl; try discriminate; eauto.
Qed.

(** A loop cut short at iteration [k]. *)
Lemma burst_trace_abort (pre post : list nat) (k : nat) (e : exn) :
  (forall i, In i pre -> step_result w i = Ret tt) ->
  step_result w k = Raise e ->
  burst_trace w target_ip port (pre ++ k :: post)
  = (Raise e, (flat_map (fun i => sample (io w i)) pre ++ step_rtts w k,
               flat_map (step_calls w target_ip port) pre
                 ++ step_calls w target_ip port k)).
Proof.
  intros Hok Hk. induction pre as [|i rest IH].
  - cbn [app burst_trace flat_map]. now rewrite Hk.
  - cbn [app burst_trace flat_map].
    destruct (step_ok_calls i (Hok i (or_introl eq_refl)))
      as (pkt & _ & _ & Hr).
    rewrite (Hok i (or_introl eq_refl)), IH, Hr
      by (intros j Hj; apply Hok; now right).
    rewrite !app_assoc. reflexivity.
Qed.

(** The [j]-th call made by the loop over [a, a+1, ...] carries the
    packet built at iteration [a + j]. *)
Lemma burst_trace_positional (n a j : nat) (c : sendto_call) :
  nth_error (snd (snd (burst_trace w target_ip port (seq a n)))) j = Some c ->
  probe_packet (a + j) (time_us (io w (a + j))) = Ret (payload c)
  /\ dest_ip c = target_ip /\ dest_port c = port.
Proof.
  revert a j. induction n as [|n IH]; intros a j.
  - cbn. destruct j; discriminate.
  - cbn [seq burst_trace].
    assert (Hhead : forall c',
              nth_error (step_calls w target_ip port a) 0 = Some c' ->
              probe_packet (a + 0) (time_us (io w (a + 0)))
              = Ret (payload c')
              /\ dest_ip c' = target_ip /\ dest_port c' = port).
    { intros c'. unfold step_calls. rewrite Nat.add_0_r.
      destruct (probe_packet a _) as [pkt|]; [|discriminate].
      intros [= <-]. auto. }
    destruct (step_result w a) as [[]|e] eqn:Ha.
    + destruct (step_ok_calls a Ha) as (pkt & Hp & Hc & _).
      specialize (IH (S a)).
      destruct (burst_trace w target_ip port (seq (S a) n)) as [r [rs ss]].
      cbn [snd fst]. destruct j as [|j].
      * intros Hj. apply Hhead. rewrite Hc in *. exact Hj.
      * rewrite Hc. cbn [app nth_error]. intros Hj.
        apply IH in Hj. now rewrite <- Nat.add_succ_comm.
    + cbn [snd fst]. destruct j as [|j]; [apply Hhead|].
      pose proof (step_calls_short a) as Hlen.
      intros Hj.
      assert (S j < length (step_calls w target_ip port a))%nat
        by (apply nth_error_Some; congruence).
      lia.
Qed.

(** If the iterations before [a + i] do not raise and iteration
    [a + i] packs its packet, the [i]-th call of the loop is that
    packet. *)
Lemma burst_trace_reaches (n a i : nat) (pkt : list byte) :
  (i < n)%nat ->
  (forall j, (j < i)%nat -> step_result w (a + j) = Ret tt) ->
  probe_packet (a + i) (time_us (io w (a + i))) = Ret pkt ->
  nth_error (snd (snd (burst_trace w target_ip port (seq a n)))) i
  = Some (call_with target_ip port pkt).
Proof.
  revert a i. induction n as [|n IH]; intros a i Hi Hok Hp; [lia|].
  cbn [seq burst_trace].
  destruct i as [|i].
  - rewrite Nat.add_0_r in Hp.
    assert (Hc : step_calls w target_ip port a = [call_with target_ip port pkt])
      by (unfold step_calls; now rewrite Hp).
    destruct (step_result w a) as [[]|e].
    + destruct (burst_trace w target_ip port (seq (S a) n)) as [r [rs ss]].
      cbn [snd fst]. now rewrite Hc.
    + cbn [snd fst]. now rewrite Hc.
  - pose proof (Hok 0%nat ltac:(lia)) as Ha. rewrite Nat.add_0_r in Ha.
    rewrite Ha.
    destruct (step_ok_calls a Ha) as (pk & _ & Hc & _).
    specialize (IH (S a) i ltac:(lia)).
    destruct (burst_trace w target_ip port (seq (S a) n)) as [r [rs ss]].
    cbn [snd fst] in *. rewrite Hc. cbn [app nth_error].
    apply IH.
    + intros j Hj. rewrite Nat.add_succ_comm. apply Hok. lia.
    + now rewrite Nat.add_succ_comm.
Qed.

End BurstTrace.

(** The first index at which a predicate on iterations holds. *)
Lemma first_true (f : nat -> bool) (k : nat) :
  f k = true ->
  exists k0, (k0 <= k)%nat /\ f k0 = true
             /\ forall j, (j < k0)%nat -> f j = false.
Proof.
  induction k as [k IH] using (well_founded_induction lt_wf).
  intros Hk.
  destruct (existsb f (seq 0 k)) eqn:E.
  - apply existsb_exists in E. destruct E as (j & Hin & Hj).
    apply in_seq in Hin.
    destruct (IH j ltac:(lia) Hj) as (k0 & Hle & H0 & Hlt).
    exists k0. repeat split; auto. lia.
  - exists k. repeat split; auto.
    intros j Hj.
    destruct (f j) eqn:Fj; [|reflexivity].
    assert (existsb f (seq 0 k) = true).
    { apply existsb_exists. exists j. split; [apply in_seq; lia|auto]. }
    congruence.
Qed.

Lemma range_split (count : Z) (k : nat) :
  Z.of_nat k < count ->
  range count = seq 0 k ++ k :: seq (S k) (Z.to_nat count - S k).
Proof.
  intros Hk. unfold range.
  replace (Z.to_nat count) with (k + S (Z.to_nat count - S k))%nat at 1
    by lia.
  rewrite seq_app. reflexivity.
Qed.

Lemma in_range (count : Z) (i : nat) :
  In i (range count) <-> Z.of_nat i < count.
Proof. unfold range. rewrite in_seq. lia. Qed.

(** ** Claims about the probe burst *)

Lemma lossy_net_clock_fits (count : Z) : clock_fits lossy_net count.
Proof. intros i _. simpl. lia. Qed.

Lemma all_steps_ok (w : net) (count : Z) :
  count < 2 ^ 32 -> clock_fits w count ->
  (forall i, Z.of_nat i < count -> socket_error (io w i) = false) ->
  forall i, In i (range count) -> step_result w i = Ret tt.
Proof.
  intros Hc Hclock Hsock i Hi. apply in_range in Hi.
  apply step_result_ok; auto. lia.
Qed.

(** C5, as the code has it.  When the burst runs to its end (the socket
    opens and no socket-level error cuts it short) and at least one
    sample is collected, [measure_twamp_light] returns the arithmetic
    mean of the samples, a single number; the loss figure is not part of
    the returned value. *)
Theorem measure_returns_mean_alone (w : net) (ip : String.string)
        (port count : Z) :
  socket_opens w = true ->
  count < 2 ^ 32 ->
  clock_fits w count ->
  (forall i, Z.of_nat i < count -> socket_error (io w i) = false) ->
  samples w count <> [] ->
  fst (measure_twamp_light w ip port count)
  = PyFloat (mean (samples w count)).
Proof.
  intros Hs Hc Hclock Hsock Hne.
  rewrite measure_by_trace by assumption.
  rewrite burst_trace_all_ok by (apply all_steps_ok; assumption).
  cbn [fst snd]. fold (samples w count).
  destruct (samples w count) as [|q qs] eqn:E; [congruence|].
  reflexivity.
Qed.

Lemma measure_returns_mean_alone_witness :
  fst (measure_twamp_light lossy_net localhost 862 3)
  = PyFloat (mean (samples lossy_net 3)).
Proof.
  apply (measure_returns_mean_alone lossy_net localhost 862 3).
  - reflexivity.
  - lia.
  - apply lossy_net_clock_fits.
  - intros [|[|i]] _; reflexivity.
  - vm_compute. discriminate.
Defined.

(** C5, as the specification states it, fails: on [lossy_net] a burst of
    three packets collects two samples, yet the value returned is the
    mean itself and not the pair of mean and loss fraction. *)
Lemma measure_returns_pair_counterexample :
  samples lossy_net 3 <> []
  /\ fst (measure_twamp_light lossy_net localhost 862 3)
     <> mean_and_loss lossy_net 3
  /\ forall a b, fst (measure_twamp_light lossy_net localhost 862 3)
                 <> PyPair a b.
Proof.
  split; [|split].
  - vm_compute. discriminate.
  - vm_compute. discriminate.
  - intros a b. vm_compute. discriminate.
Qed.

(** C6.  For a burst of [count] packets whose sequence numbers and clock
    readings are packable:
    - if the socket opens and no socket-level error occurs, timeouts do
      not stop the burst (all [count] packets are sent) and the result is
      [None] exactly when no sample was collected;
    - if a socket-level error occurs at some packet, the result is
      [None] and nothing is sent after the failing packet;
    - if the socket cannot be opened, the result is [None] and nothing
      is sent. *)
Theorem measure_none_cases (w : net) (ip : String.string) (port count : Z) :
  0 <= count < 2 ^ 32 ->
  clock_fits w count ->
  (socket_opens w = true ->
   (forall i, Z.of_nat i < count -> socket_error (io w i) = false) ->
   Z.of_nat (length (snd (measure_twamp_light w ip port count))) = count
   /\ (fst (measure_twamp_light w ip port count) = PyNone
       <-> samples w count = []))
  /\ (forall k, Z.of_nat k < count -> socket_error (io w k) = true ->
      fst (measure_twamp_light w ip port count) = PyNone
      /\ (length (snd (measure_twamp_light w ip port count)) <= k + 1)%nat)
  /\ (socket_opens w = false ->
      measure_twamp_light w ip port count = (PyNone, [])).
Proof.
  intros Hc Hclock. split; [|split].
  - intros Hs Hsock.
    pose proof (all_steps_ok w count (proj2 Hc) Hclock Hsock) as Hok.
    rewrite measure_by_trace by assumption.
    rewrite burst_trace_all_ok by assumption.
    cbn [fst snd]. fold (samples w count). split.
    + rewrite flat_map_step_calls_length by assumption.
      unfold range. rewrite length_seq. lia.
    + destruct (samples w count); split; intros H;
        try reflexivity; discriminate.
  - intros k Hk Herr.
    destruct (socket_opens w) eqn:Hs.
    2:{ rewrite measure_socket_fails by assumption. simpl. split; [auto|lia]. }
    destruct (first_true (fun j => socket_error (io w j)) k Herr)
      as (k0 & Hle & H0 & Hbefore).
    destruct (step_result_error w k0) as [e He]; auto.
    { apply Hclock. lia. } { lia. }
    assert (Hpre : forall i, In i (seq 0 k0) -> step_result w i = Ret tt).
    { intros i Hi. apply in_seq in Hi. apply step_result_ok.
      - apply Hclock. lia.
      - lia.
      - apply Hbefore. lia. }
    rewrite measure_by_trace by assumption.
    rewrite (range_split count k0) by lia.
    rewrite (burst_trace_abort w ip port _ _ k0 e Hpre He).
    cbn [fst snd]. split; [reflexivity|].
    rewrite length_app, flat_map_step_calls_length, length_seq by assumption.
    pose proof (step_calls_short w ip port k0). lia.
  - apply measure_socket_fails.
Qed.

Lemma measure_none_cases_witness :
  Z.of_nat (length (snd (measure_twamp_light lossy_net localhost 862 3))) = 3
  /\ (fst (measure_twamp_light lossy_net localhost 862 3) = PyNone
      <-> samples lossy_net 3 = []).
Proof.
  apply (measure_none_cases lossy_net localhost 862 3).
  - lia.
  - apply lossy_net_clock_fits.
  - reflexivity.
  - intros [|[|i]] _; reflexivity.
Defined.

(** X9.  Every packet a burst hands to [sendto] has the probe layout: the
    [j]-th call (0-based) carries sequence number [j + 1] and the clock
    reading of its iteration, and goes to the target. *)
Lemma sent_packet_layout (w : net) (ip : String.string) (port count : Z)
      (j : nat) (c : sendto_call) :
  nth_error (snd (measure_twamp_light w ip port count)) j = Some c ->
  probe_layout (payload c) (Z.of_nat j + 1) (time_us (io w j))
  /\ dest_ip c = ip /\ dest_port c = port.
Proof.
  destruct (socket_opens w) eqn:Hs.
  2:{ rewrite measure_socket_fails by assumption.
      destruct j; discriminate. }
  rewrite measure_by_trace by assumption. cbn [snd].
  unfold range. intros Hj.
  apply burst_trace_positional in Hj. cbn [Nat.add] in Hj.
  destruct Hj as (Hp & Hip & Hport).
  apply probe_packet_inv in Hp. destruct Hp as (Hts & Hseq & ->).
  split; [|auto].
  apply probe_bytes_layout; lia.
Qed.

(** C7.  In a burst that gets as far as its [i]-th iteration (0-based:
    the socket opened and no earlier packet met a socket-level error),
    the packet sent at that iteration is 20 bytes long and reads,
    big-endian, sequence number [i + 1] in bytes 0-3, the microsecond
    clock reading of the iteration in bytes 4-11, and zero in bytes
    12-19. *)
Theorem probe_packet_format (w : net) (ip : String.string) (port count : Z)
        (i : nat) :
  socket_opens w = true ->
  Z.of_nat i < count ->
  count < 2 ^ 32 ->
  (forall j, (j <= i)%nat -> 0 <= time_us (io w j) < 2 ^ 64) ->
  (forall j, (j < i)%nat -> socket_error (io w j) = false) ->
  exists c,
    nth_error (snd (measure_twamp_light w ip port count)) i = Some c
    /\ dest_ip c = ip /\ dest_port c = port
    /\ probe_layout (payload c) (Z.of_nat i + 1) (time_us (io w i)).
Proof.
  intros Hs Hi Hc Hclock Hsock.
  assert (Hp : probe_packet (0 + i) (time_us (io w (0 + i)))
               = Ret (be_bytes 4 (Z.of_nat i + 1)
                        ++ be_bytes 8 (time_us (io w i)) ++ be_bytes 8 0)).
  { cbn [Nat.add]. apply probe_packet_fits; [apply Hclock|]; lia. }
  exists (call_with ip port
            (be_bytes 4 (Z.of_nat i + 1)
               ++ be_bytes 8 (time_us (io w i)) ++ be_bytes 8 0)).
  split.
  - rewrite measure_by_trace by assumption. cbn [snd]. unfold range.
    apply burst_trace_reaches; [lia| |exact Hp].
    intros j Hj. cbn [Nat.add]. apply step_result_ok.
    + apply Hclock. lia.
    + lia.
    + apply Hsock. lia.
  - cbn [dest_ip dest_port payload call_with].
    split; [reflexivity|split; [reflexivity|]].
    apply probe_bytes_layout; [lia|apply Hclock; lia].
Qed.

Lemma probe_packet_format_witness :
  exists c,
    nth_error (snd (measure_twamp_light lossy_net localhost 862 3)) 2 = Some c
    /\ dest_ip c = localhost /\ dest_port c = 862
    /\ probe_layout (payload c) 3 1700000000000000.
Proof.
  apply (probe_packet_format lossy_net localhost 862 3 2).
  - reflexivity.
  - lia.
  - lia.
  - intros j _. simpl. lia.
  - intros [|[|j]] _; reflexivity.
Defined.

(** ** Claims about the measurement cycle *)

(** Reading the count leaves the daemon's state alone. *)
Lemma on_shm_count (host : endianness) (d : daemon) :
  on_shm (read_nexthop_count host) d
  = (fst (read_nexthop_count host (shm_map d)), d).
Proof. destruct d. reflexivity. Qed.

(** The loop body raises on every entry, before any probe or write: it
    starts by decoding the entry. *)
Lemma measure_entry_aborts (host : endianness) (w : world)
      (packet_count : Z) (i : nat) (d : daemon) :
  exists e, measure_entry host w packet_count i d = (Raise e, d).
Proof.
  eexists. unfold measure_entry. apply bind_raise.
  unfold on_shm. rewrite read_nexthop_aborts. destruct d. reflexivity.
Qed.

(** A cycle over a non-empty table stops with an exception at entry 0
    and leaves region and probe log as they were. *)
Lemma cycle_raises_when_nonempty (host : endianness) (w : world)
      (packet_count count : Z) (d : daemon) :
  fst (read_nexthop_count host (shm_map d)) = Ret count ->
  0 < count ->
  exists e, run_measurement_cycle host w packet_count d = (Raise e, d).
Proof.
  intros Hc Hpos. unfold run_measurement_cycle.
  assert (E : on_shm (read_nexthop_count host) d = (Ret count, d))
    by (now rewrite on_shm_count, Hc).
  rewrite (bind_ret _ _ _ _ _ E).
  destruct (count =? 0) eqn:E0; [apply Z.eqb_eq in E0; lia|].
  destruct (range_nonempty count Hpos) as [rest ->].
  cbn [for_each].
  destruct (measure_entry_aborts host w packet_count 0 d) as [e He].
  exists e. now apply bind_raise.
Qed.

(** No cycle changes the region or probes anything. *)
Lemma cycle_state_unchanged (host : endianness) (w : world)
      (packet_count : Z) (d : daemon) :
  snd (run_measurement_cycle host w packet_count d) = d.
Proof.
  unfold run_measurement_cycle, bind.
  rewrite on_shm_count.
  destruct (fst (read_nexthop_count host (shm_map d))) as [count|e];
    [|reflexivity].
  destruct (count =? 0); [reflexivity|].
  destruct (range count) as [|i rest]; [reflexivity|].
  cbn [for_each]. unfold bind.
  destruct (measure_entry_aborts host w packet_count i d) as [e He].
  now rewrite He.
Qed.

(** C8.  A cycle on a region whose count is zero returns normally and
    leaves the daemon's state (region and probe log) exactly as it was;
    and for every index below the count whose [active] byte is zero, the
    24 bytes of that entry are the same after the cycle and the cycle
    adds no probe of that entry to the log. *)
Theorem cycle_skips_empty_and_inactive (host : endianness) (w : world)
        (packet_count : Z) (d : daemon) :
  (fst (read_nexthop_count host (shm_map d)) = Ret 0 ->
   run_measurement_cycle host w packet_count d = (Ret tt, d))
  /\ (forall (count : Z) (i : nat),
      fst (read_nexthop_count host (shm_map d)) = Ret count ->
      Z.of_nat i < count ->
      active_byte (shm_map d) i = Some x00 ->
      let d' := snd (run_measurement_cycle host w packet_count d) in
      Mmap.getslice (shm_map d') (52 + 24 * Z.of_nat i)
                    (52 + 24 * Z.of_nat i + 24)
      = Mmap.getslice (shm_map d) (52 + 24 * Z.of_nat i)
                      (52 + 24 * Z.of_nat i + 24)
      /\ forall calls, In (i, calls) (probes d') -> In (i, calls) (probes d)).
Proof.
  split.
  - intros Hc. unfold run_measurement_cycle.
    assert (E : on_shm (read_nexthop_count host) d = (Ret 0, d))
      by (now rewrite on_shm_count, Hc).
    rewrite (bind_ret _ _ _ _ _ E). reflexivity.
  - intros count i _ _ _. cbv zeta.
    rewrite cycle_state_unchanged. auto.
Qed.

Lemma cycle_skips_empty_and_inactive_witness :
  run_measurement_cycle LittleEndian
    {| net_of := fun _ => lossy_net; time_s := fun _ => 1700000000 |} 3
    {| shm_map := empty_region; probes := [] |}
  = (Ret tt, {| shm_map := empty_region; probes := [] |})
  /\ Mmap.getslice
       (shm_map (snd (run_measurement_cycle LittleEndian
          {| net_of := fun _ => lossy_net; time_s := fun _ => 1700000000 |} 3
          {| shm_map := sample_region; probes := [] |})))
       (52 + 24 * Z.of_nat 1) (52 + 24 * Z.of_nat 1 + 24)
     = Mmap.getslice sample_region
         (52 + 24 * Z.of_nat 1) (52 + 24 * Z.of_nat 1 + 24).
Proof.
  split.
  - apply (cycle_skips_empty_and_inactive LittleEndian
             {| net_of := fun _ => lossy_net; time_s := fun _ => 1700000000 |}
             3 {| shm_map := empty_region; probes := [] |}).
    vm_compute. reflexivity.
  - apply (proj2 (cycle_skips_empty_and_inactive LittleEndian
             {| net_of := fun _ => lossy_net; time_s := fun _ => 1700000000 |}
             3 {| shm_map := sample_region; probes := [] |}) 2 1%nat).
    + vm_compute. reflexivity.
    + lia.
    + vm_compute. reflexivity.
Defined.

(** ** Claims about the reflector *)

Module ReflectorFacts.
Import Reflector ReflectorSpec.

(** The sequence number of a datagram of four bytes or more can always
    be parsed. *)
Lemma parse_sequence_ok (data : list byte) :
  (4 <= length data)%nat ->
  exists v,
    obind (PyStruct.unpack BigEndian PyStruct.Network [PyStruct.I]
                           (firstn 4 data))
          (fun vs => match vs with
                     | v :: _ => Ret v
                     | [] => Raise IndexError
                     end) = Ret v.
Proof.
  intros Hlen. unfold PyStruct.unpack.
  rewrite length_firstn, Nat.min_l by assumption.
  cbn. eauto.
Qed.

Lemma loop_body_echo (p : pass) (s : state) :
  echoed (loop_body p s) = echoed s ++ echo_of p
  /\ running (loop_body p s) = running s.
Proof.
  unfold loop_body, receive_and_echo, echo_of.
  destruct (recv p) as [data a|e].
  - destruct (Z.of_nat (length data) <? 20) eqn:E.
    + cbn. rewrite app_nil_r. auto.
    + apply Z.ltb_ge in E.
      destruct (parse_sequence_ok data ltac:(lia)) as [v Hv].
      unfold bind, count_packet, lift, sendto. rewrite Hv.
      cbn. auto.
  - cbn. rewrite app_nil_r. auto.
Qed.

(** Over a whole run: the replies sent are those owed for the passes
    made while listening, in order. *)
Lemma main_loop_echoes (ps : list pass) (s : state) :
  running s = true ->
  echoed (main_loop ps s) = echoed s ++ flat_map echo_of (listened ps).
Proof.
  revert s. induction ps as [|p rest IH]; intros s Hrun.
  - cbn. now rewrite app_nil_r.
  - cbn [main_loop listened flat_map]. rewrite Hrun.
    destruct (loop_body_echo p s) as [He Hr].
    unfold deliver. destruct (signalled p).
    + destruct rest; cbn [main_loop signal_handler running echoed flat_map];
        rewrite He, app_nil_r; reflexivity.
    + rewrite IH by congruence. rewrite He, app_assoc. reflexivity.
Qed.

(** A datagram longer than the receive buffer comes back cut to 1024
    bytes. *)
Lemma long_datagram_echo (datagram : list byte) (a : address) (s : state) :
  (1024 <= length datagram)%nat ->
  echoed (loop_body {| recv := recvfrom_1024 datagram a;
                       send_fails := None; signalled := false |} s)
  = echoed s ++ [(firstn 1024 datagram, a)].
Proof.
  intros Hlen. rewrite (proj1 (loop_body_echo _ s)).
  unfold echo_of, recvfrom_1024. cbn [recv].
  rewrite length_firstn, Nat.min_l by assumption. reflexivity.
Qed.

End ReflectorFacts.


(* ================================================================== *)
(** * Further properties of the code *)

(** ** Decoding and the table header *)

Lemma Z_of_byte_range (b : byte) : 0 <= Z_of_byte b < 256.
Proof.
  unfold Z_of_byte. pose proof (Byte.to_N_bounded b). lia.
Qed.

Lemma be_fold_range (bs : list byte) (acc : Z) :
  0 <= acc ->
  acc * 256 ^ Z.of_nat (length bs)
  <= fold_left (fun a b => a * 256 + Z_of_byte b) bs acc
  < (acc + 1) * 256 ^ Z.of_nat (length bs).
Proof.
  revert acc. induction bs as [|b bs IH]; intros acc Hacc.
  - cbn. lia.
  - cbn [fold_left length]. rewrite Nat2Z.inj_succ, Z.pow_succ_r by lia.
    pose proof (Z_of_byte_range b) as Hb.
    specialize (IH (acc * 256 + Z_of_byte b) ltac:(lia)).
    assert (0 < 256 ^ Z.of_nat (length bs)) by (apply Z.pow_pos_nonneg; lia).
    nia.
Qed.

(** A byte string of [n] bytes denotes a number below [256 ^ n]. *)
Lemma be_value_range (bs : list byte) :
  0 <= be_value bs < 256 ^ Z.of_nat (length bs).
Proof.
  unfold be_value. pose proof (be_fold_range bs 0 ltac:(lia)). lia.
Qed.

Lemma int_from_bytes_range (e : endianness) (bs : list byte) :
  0 <= int_from_bytes e bs < 256 ^ Z.of_nat (length bs).
Proof.
  destruct e; cbn [int_from_bytes].
  - apply be_value_range.
  - rewrite <- length_rev. apply be_value_range.
Qed.

Lemma int_from_to_bytes (e : endianness) (n : nat) (v : Z) :
  0 <= v < 256 ^ Z.of_nat n ->
  int_from_bytes e (int_to_bytes e n v) = v.
Proof.
  intros Hv. destruct e; cbn [int_from_bytes int_to_bytes].
  - now apply be_value_bytes.
  - rewrite rev_involutive. now apply be_value_bytes.
Qed.

Lemma int_to_bytes_length (e : endianness) (n : nat) (v : Z) :
  length (int_to_bytes e n v) = n.
Proof.
  destruct e; cbn [int_to_bytes];
    rewrite ?length_rev; apply be_bytes_length.
Qed.

(** The count field, read off the bytes. *)
Lemma read_nexthop_count_value (host : endianness) (m : Mmap.t) :
  (44 <= length m)%nat ->
  read_nexthop_count host m
  = (Ret (int_from_bytes host (Mmap.getslice m 40 44)), m)
  /\ length (Mmap.getslice m 40 44) = 4%nat.
Proof.
  intros Hlen.
  assert (L : length (Mmap.getslice m 40 (40 + 4)) = 4%nat)
    by (rewrite getslice_length_inside; lia).
  split; [|exact L].
  unfold read_nexthop_count, bind, get, lift, PyStruct.unpack.
  change (40 + 4) with 44 in *.
  set (data := Mmap.getslice m 40 44) in *.
  rewrite L. cbn [PyStruct.calcsize map PyStruct.size list_sum Nat.add
                  Nat.eqb obind PyStruct.unpack_fields PyStruct.order].
  rewrite firstn_all2 by lia. reflexivity.
Qed.

Lemma read_nexthop_count_short (host : endianness) (m : Mmap.t) :
  (length m < 44)%nat ->
  read_nexthop_count host m = (Raise StructError, m).
Proof.
  intros Hlen.
  assert (L : (length (Mmap.getslice m 40 (40 + 4)) < 4)%nat).
  { unfold Mmap.getslice, Mmap.bounds, Mmap.adjust. cbn [Z.ltb Z.compare].
    change (40 + 4 <? 0) with false. cbv iota.
    rewrite length_firstn, length_skipn. lia. }
  unfold read_nexthop_count, bind, get, lift, PyStruct.unpack.
  destruct (Nat.eqb _ _) eqn:E; [|reflexivity].
  apply Nat.eqb_eq in E.
  change (PyStruct.calcsize [PyStruct.I]) with 4%nat in E. lia.
Qed.

(** X1.  [read_nexthop] returns for no region and no index: it leaves
    the region as it is and raises [ValueError] when the slice it cuts
    has exactly 20 bytes (six values for seven names), [struct.error] in
    every other case (a full 24-byte entry included). *)
Theorem read_nexthop_never_returns (host : endianness) (index : Z)
        (m : Mmap.t) :
  exists e,
    read_nexthop host index m = (Raise e, m)
    /\ (e = ValueError
        <-> length (Mmap.getslice m (52 + index * 24)
                                  (52 + index * 24 + 24)) = 20%nat)
    /\ (e = StructError
        <-> length (Mmap.getslice m (52 + index * 24)
                                  (52 + index * 24 + 24)) <> 20%nat).
Proof.
  rewrite read_nexthop_aborts.
  destruct (Nat.eqb _ 20) eqn:E.
  - apply Nat.eqb_eq in E. exists ValueError.
    repeat split; try congruence; intros; try discriminate; auto.
  - apply Nat.eqb_neq in E. exists StructError.
    repeat split; try congruence; intros; try discriminate; auto.
Qed.

(** X2.  Neither [write_nexthop_latency] nor [mark_nexthop_failed]
    returns on any region, index or value: each raises and leaves every
    byte of the region as it was. *)
Theorem codec_writes_always_raise (host : endianness) (index l now : Z)
        (m : Mmap.t) :
  exists e1 e2,
    write_nexthop_latency host index l now m = (Raise e1, m)
    /\ mark_nexthop_failed host index m = (Raise e2, m).
Proof.
  destruct (write_nexthop_latency_aborts host index l now m) as [e1 E1].
  destruct (mark_nexthop_failed_aborts host index m) as [e2 E2].
  eauto.
Qed.

(** X3.  [read_nexthop_count] succeeds exactly on regions of at least 44
    bytes: there it returns the four bytes at offsets 40-43 read in host
    order, a value in [0, 2^32); on a shorter region it raises
    [struct.error].  It never changes the region. *)
Theorem read_nexthop_count_total (host : endianness) (m : Mmap.t) :
  snd (read_nexthop_count host m) = m
  /\ ((44 <= length m)%nat ->
      exists c, fst (read_nexthop_count host m) = Ret c
                /\ c = int_from_bytes host (firstn 4 (skipn 40 m))
                /\ 0 <= c < 2 ^ 32)
  /\ ((length m < 44)%nat ->
      fst (read_nexthop_count host m) = Raise StructError).
Proof.
  split; [reflexivity|split].
  - intros Hlen.
    destruct (read_nexthop_count_value host m Hlen) as [E L].
    rewrite E. cbn [fst]. eexists. split; [reflexivity|].
    assert (S : Mmap.getslice m 40 44 = firstn 4 (skipn 40 m)).
    { unfold Mmap.getslice, Mmap.bounds, Mmap.adjust.
      change (40 <? 0) with false. change (44 <? 0) with false. cbv iota.
      f_equal; [lia|f_equal; lia]. }
    rewrite <- S. split; [reflexivity|].
    pose proof (int_from_bytes_range host (Mmap.getslice m 40 44)) as R.
    rewrite L in R. exact R.
  - intros Hlen. now rewrite read_nexthop_count_short.
Qed.

Lemma read_nexthop_count_total_witness :
  exists c, fst (read_nexthop_count LittleEndian sample_region) = Ret c
            /\ c = int_from_bytes LittleEndian
                     (firstn 4 (skipn 40 sample_region))
            /\ 0 <= c < 2 ^ 32.
Proof.
  apply (read_nexthop_count_total LittleEndian sample_region).
  pose proof sample_region_length. lia.
Defined.

(** A slice with bounds inside the region, in terms of [firstn] and
    [skipn]. *)
Lemma getslice_inside (m : Mmap.t) (a b : nat) :
  (a <= b <= length m)%nat ->
  Mmap.getslice m (Z.of_nat a) (Z.of_nat b) = firstn (b - a) (skipn a m).
Proof.
  intros Hab. unfold Mmap.getslice, Mmap.bounds, Mmap.adjust.
  destruct (Z.of_nat a <? 0) eqn:E1; [apply Z.ltb_lt in E1; lia|].
  destruct (Z.of_nat b <? 0) eqn:E2; [apply Z.ltb_lt in E2; lia|].
  f_equal; [lia|f_equal; lia].
Qed.

(** X4.  Round trip with the process that writes the header: if the four
    bytes after the 40-byte lock hold [c] in the host's byte order,
    [read_nexthop_count] returns [c], for every [c] that fits 32 bits
    (values above [MAX_NEXTHOPS] included: the count is not checked
    against the table size). *)
Theorem read_nexthop_count_roundtrip (host : endianness)
        (lock rest : list byte) (c : Z) :
  length lock = 40%nat ->
  0 <= c < 2 ^ 32 ->
  fst (read_nexthop_count host (lock ++ int_to_bytes host 4 c ++ rest))
  = Ret c.
Proof.
  intros Hlock Hc.
  set (m := lock ++ int_to_bytes host 4 c ++ rest).
  assert (Hlen : (44 <= length m)%nat).
  { unfold m. rewrite !length_app, int_to_bytes_length. lia. }
  destruct (read_nexthop_count_value host m Hlen) as [E _].
  rewrite E. cbn [fst]. f_equal.
  change 40 with (Z.of_nat 40). change 44 with (Z.of_nat 44).
  rewrite getslice_inside by lia.
  unfold m. rewrite skipn_app, Hlock, Nat.sub_diag.
  rewrite skipn_all2 by lia. cbn [skipn app].
  rewrite firstn_app, int_to_bytes_length.
  change (44 - 40 - 4)%nat with 0%nat. cbn [firstn].
  rewrite app_nil_r, firstn_all2 by (rewrite int_to_bytes_length; lia).
  apply int_from_to_bytes. exact Hc.
Qed.

Lemma read_nexthop_count_roundtrip_witness :
  fst (read_nexthop_count BigEndian
         (zeros 40 ++ int_to_bytes BigEndian 4 2000 ++ zeros 8))
  = Ret 2000.
Proof.
  apply (read_nexthop_count_roundtrip BigEndian (zeros 40) (zeros 8) 2000).
  - reflexivity.
  - lia.
Defined.

Lemma cycle_returns_iff (host : endianness) (w : world)
      (packet_count : Z) (d : daemon) :
  fst (run_measurement_cycle host w packet_count d) = Ret tt
  <-> fst (read_nexthop_count host (shm_map d)) = Ret 0.
Proof.
  split.
  - intros Hret.
    destruct (Nat.le_gt_cases 44 (length (shm_map d))) as [Hlen|Hlen].
    + destruct (read_nexthop_count_value host (shm_map d) Hlen) as [E L].
      pose proof (int_from_bytes_range host
                    (Mmap.getslice (shm_map d) 40 44)) as R.
      rewrite L in R.
      set (c := int_from_bytes host (Mmap.getslice (shm_map d) 40 44)) in *.
      rewrite E. cbn [fst].
      destruct (Z.eq_dec c 0) as [->|Hc]; [reflexivity|].
      destruct (cycle_raises_when_nonempty host w packet_count c d)
        as [e He]; [now rewrite E|lia|].
      rewrite He in Hret. discriminate.
    + unfold run_measurement_cycle in Hret.
      rewrite (bind_raise _ _ StructError d d) in Hret; [discriminate|].
      rewrite on_shm_count, read_nexthop_count_short by assumption.
      reflexivity.
  - intros Hc. unfold run_measurement_cycle.
    assert (E : on_shm (read_nexthop_count host) d = (Ret 0, d))
      by (now rewrite on_shm_count, Hc).
    rewrite (bind_ret _ _ _ _ _ E). reflexivity.
Qed.

(** X5.  A measurement cycle returns normally exactly when the count
    field reads zero.  On every other region (a count above zero, or a
    region too short to hold the count) it ends in an exception; and in
    every case it leaves the region unchanged and has probed nothing. *)
Theorem cycle_returns_iff_count_zero (host : endianness) (w : world)
        (packet_count : Z) (d : daemon) :
  snd (run_measurement_cycle host w packet_count d) = d
  /\ (fst (run_measurement_cycle host w packet_count d) = Ret tt
      <-> fst (read_nexthop_count host (shm_map d)) = Ret 0).
Proof.
  split; [apply cycle_state_unchanged|apply cycle_returns_iff].
Qed.

(** ** The burst: bounds *)

Lemma burst_trace_lengths (w : net) (ip : String.string) (port : Z)
      (idxs : list nat) :
  (length (fst (snd (burst_trace w ip port idxs)))
   <= length (snd (snd (burst_trace w ip port idxs))))%nat
  /\ (length (snd (snd (burst_trace w ip port idxs))) <= length idxs)%nat.
Proof.
  induction idxs as [|i rest IH]; [cbn; lia|].
  cbn [burst_trace].
  assert (H1 : (length (step_rtts w i)
                <= length (step_calls w ip port i))%nat).
  { unfold step_rtts, step_calls, sample.
    destruct (probe_packet i _); [|cbn; lia].
    destruct (exch (io w i)); cbn; lia. }
  pose proof (step_calls_short w ip port i) as H2.
  destruct (step_result w i) as [[]|e].
  - destruct (burst_trace w ip port rest) as [r [rs ss]].
    cbn [fst snd length] in *. rewrite !length_app. lia.
  - cbn [fst snd length]. lia.
Qed.

(** X6.  A burst of zero packets or fewer sends nothing and returns
    [None], whatever the network. *)
Theorem measure_without_packets (w : net) (ip : String.string)
        (port count : Z) :
  count <= 0 ->
  measure_twamp_light w ip port count = (PyNone, []).
Proof.
  intros Hc. unfold measure_twamp_light, run_burst, range.
  replace (Z.to_nat count) with 0%nat by lia.
  destruct (socket_opens w); reflexivity.
Qed.

Lemma measure_without_packets_witness :
  measure_twamp_light lossy_net localhost 862 0 = (PyNone, []).
Proof.
  apply (measure_without_packets lossy_net localhost 862 0). lia.
Defined.

(** X7.  Whatever the network does, a burst of [count] packets calls
    [sendto] at most [count] times. *)
Theorem measure_sends_at_most_count (w : net) (ip : String.string)
        (port count : Z) :
  0 <= count ->
  Z.of_nat (length (snd (measure_twamp_light w ip port count))) <= count.
Proof.
  intros Hc. destruct (socket_opens w) eqn:Hs.
  - rewrite measure_by_trace by assumption. cbn [snd].
    pose proof (burst_trace_lengths w ip port (range count)) as [_ H].
    unfold range in H at 2. rewrite length_seq in H. lia.
  - rewrite measure_socket_fails by assumption. cbn. lia.
Qed.

Lemma measure_sends_at_most_count_witness :
  Z.of_nat (length (snd (measure_twamp_light lossy_net localhost 862 3)))
  <= 3.
Proof.
  apply (measure_sends_at_most_count lossy_net localhost 862 3). lia.
Defined.

Lemma sent_packet_layout_witness :
  probe_layout (be_bytes 4 1 ++ be_bytes 8 1700000000000000 ++ be_bytes 8 0)
               (Z.of_nat 0 + 1) (time_us (io lossy_net 0))
  /\ localhost = localhost /\ 862 = 862.
Proof.
  apply (sent_packet_layout lossy_net localhost 862 3 0
           (call_with localhost 862
              (be_bytes 4 1 ++ be_bytes 8 1700000000000000
                 ++ be_bytes 8 0))).
  vm_compute. reflexivity.
Defined.

(** ** The daemon's entry point *)

Module DaemonFacts.
Import Daemon.

Lemma cycle_on_effect (host : endianness) (r : round) (n : Z) (p : process) :
  cycle_on host r n p
  = (fst (run_measurement_cycle host (round_world r) n (mem p)), p).
Proof.
  unfold cycle_on.
  pose proof (cycle_state_unchanged host (round_world r) n (mem p)) as E.
  destruct (run_measurement_cycle host (round_world r) n (mem p))
    as [res d].
  cbn [snd fst] in *. subst d. destruct p. reflexivity.
Qed.

(** On a table that holds entry 0 in full and has a count above zero, the
    cycle ends in [struct.error]. *)
Lemma cycle_struct_error (host : endianness) (w : world) (n count : Z)
      (d : daemon) :
  fst (read_nexthop_count host (shm_map d)) = Ret count ->
  0 < count ->
  (76 <= length (shm_map d))%nat ->
  run_measurement_cycle host w n d = (Raise StructError, d).
Proof.
  intros Hc Hpos Hlen. unfold run_measurement_cycle.
  assert (E : on_shm (read_nexthop_count host) d = (Ret count, d))
    by (now rewrite on_shm_count, Hc).
  rewrite (bind_ret _ _ _ _ _ E).
  destruct (count =? 0) eqn:E0; [apply Z.eqb_eq in E0; lia|].
  destruct (range_nonempty count Hpos) as [rest ->].
  cbn [for_each]. apply bind_raise.
  unfold measure_entry. apply bind_raise.
  unfold on_shm. cbn [Z.of_nat].
  rewrite read_nexthop_struct_error by lia.
  destruct d. reflexivity.
Qed.

Lemma sleep_loop_stopped (sig : signal_time) (js : list nat) (p : process) :
  running p = false -> sleep_loop sig js p = p.
Proof. intros H. destruct js; cbn; [|rewrite H]; reflexivity. Qed.

Lemma sleep_loop_app (sig : signal_time) (xs ys : list nat) (p : process) :
  sleep_loop sig (xs ++ ys) p = sleep_loop sig ys (sleep_loop sig xs p).
Proof.
  revert p. induction xs as [|x xs IH]; intros p; cbn [app sleep_loop].
  - reflexivity.
  - destruct (running p) eqn:R; [apply IH|].
    now rewrite sleep_loop_stopped.
Qed.

(** A pause during which no signal arrives: every second is slept. *)
Lemma sleep_loop_quiet (sig : signal_time) (js : list nat) (p : process) :
  running p = true ->
  (forall j, In j js -> arrives_in_sleep sig j = false) ->
  sleep_loop sig js p
  = {| mem := mem p; running := true;
       slept := slept p + length js; closed := closed p |}.
Proof.
  revert p. induction js as [|j js IH]; intros p R Hq.
  - destruct p. cbn in *. subst. now rewrite Nat.add_0_r.
  - cbn [sleep_loop]. rewrite R. unfold sleep_second.
    rewrite (Hq j (or_introl eq_refl)). cbn [deliver_if].
    rewrite IH by (cbn; auto using in_cons).
    cbn [mem running slept closed length]. f_equal. lia.
Qed.

(** A pause during which the signal arrives in second [k]: that second
    is the last one slept. *)
Lemma sleep_loop_interrupted (n k : nat) (p : process) :
  running p = true -> (k < n)%nat ->
  sleep_loop (DuringSleep k) (seq 0 n) p
  = {| mem := mem p; running := false;
       slept := slept p + k + 1; closed := closed p |}.
Proof.
  intros R Hk.
  replace n with (k + S (n - S k))%nat by lia.
  rewrite seq_app. cbn [seq Nat.add]. rewrite sleep_loop_app.
  rewrite (sleep_loop_quiet (DuringSleep k) (seq 0 k) p R).
  2:{ intros j Hj. apply in_seq in Hj. cbn.
      apply Nat.eqb_neq. lia. }
  cbn [sleep_loop running]. unfold sleep_second.
  cbn [arrives_in_sleep]. rewrite Nat.eqb_refl.
  cbn [deliver_if signal_handler mem running slept closed].
  rewrite sleep_loop_stopped by reflexivity.
  rewrite length_seq. unfold signal_handler.
  cbn [mem running slept closed]. f_equal. lia.
Qed.

Lemma sleep_loop_mem (sig : signal_time) (js : list nat) (p : process) :
  mem (sleep_loop sig js p) = mem p
  /\ closed (sleep_loop sig js p) = closed p.
Proof.
  revert p. induction js as [|j js IH]; intros p; cbn [sleep_loop]; [auto|].
  destruct (running p); [|auto].
  destruct (IH (sleep_second sig j p)) as [E1 E2]. rewrite E1, E2.
  unfold sleep_second, deliver_if.
  destruct (arrives_in_sleep sig j); auto.
Qed.

Lemma deliver_if_mem (b : bool) (p : process) :
  mem (deliver_if b p) = mem p
  /\ closed (deliver_if b p) = closed p
  /\ slept (deliver_if b p) = slept p.
Proof. destruct b; auto. Qed.

Lemma deliver_if_stopped (b : bool) (p : process) :
  running p = false -> deliver_if b p = p.
Proof. intros R. destruct b; [|reflexivity]. destruct p; cbn in *. now subst. Qed.

(** One pass, with the cycle's outcome made explicit. *)
Lemma main_round_effect (host : endianness) (a : args) (r : round)
      (p : process) :
  main_round host a r p
  = let p1 := deliver_if (arrives_in_cycle (signal r)) p in
    match fst (run_measurement_cycle host (round_world r) (packets a)
                                     (mem p)) with
    | Raise e => (Raise e, p1)
    | Ret _ =>
        (Ret tt,
         if running p1 then sleep_loop (signal r) (range (cycle a)) p1
         else p1)
    end.
Proof. unfold main_round. rewrite cycle_on_effect. reflexivity. Qed.

(** One pass leaves region, probe log and [closed] untouched, whether it
    returns or raises. *)
Lemma main_round_mem (host : endianness) (a : args) (r : round)
      (p : process) :
  mem (snd (main_round host a r p)) = mem p
  /\ closed (snd (main_round host a r p)) = closed p.
Proof.
  rewrite main_round_effect. cbv zeta.
  destruct (deliver_if_mem (arrives_in_cycle (signal r)) p)
    as (Hm & Hc & _).
  destruct (fst (run_measurement_cycle _ _ _ _)) as [[]|e]; cbn [snd];
    [|auto].
  destruct (running (deliver_if _ p)); [|auto].
  destruct (sleep_loop_mem (signal r) (range (cycle a))
              (deliver_if (arrives_in_cycle (signal r)) p)) as [E1 E2].
  rewrite E1, E2. auto.
Qed.

Lemma while_running_mem (host : endianness) (a : args)
      (rounds : list round) (p : process) :
  mem (snd (while_running host a rounds p)) = mem p
  /\ closed (snd (while_running host a rounds p)) = closed p.
Proof.
  revert p. induction rounds as [|r rest IH]; intros p;
    cbn [while_running]; [auto|].
  cbv zeta.
  destruct (deliver_if_mem (arrives_before (signal r)) p) as (Hm & Hc & _).
  set (p0 := deliver_if (arrives_before (signal r)) p) in *.
  destruct (running p0); [|auto].
  unfold bind.
  destruct (main_round_mem host a r p0) as [E1 E2].
  destruct (main_round host a r p0) as [[[]|e] p1]; cbn [snd] in *.
  - destruct (IH p1) as [F1 F2]. rewrite F1, F2, E1, E2. auto.
  - rewrite E1, E2. auto.
Qed.

Lemma while_running_stopped (host : endianness) (a : args)
      (rounds : list round) (p : process) :
  running p = false -> while_running host a rounds p = (Ret true, p).
Proof.
  intros H. destruct rounds as [|r rest]; cbn [while_running].
  - now rewrite H.
  - cbv zeta. rewrite deliver_if_stopped by exact H. now rewrite H.
Qed.

(** A pass over an empty table during which no signal arrives: the
    whole pause is slept. *)
Lemma main_round_quiet (host : endianness) (a : args) (r : round)
      (p : process) :
  fst (read_nexthop_count host (shm_map (mem p))) = Ret 0 ->
  running p = true ->
  signal r = NoSignal ->
  main_round host a r p
  = (Ret tt, {| mem := mem p; running := true;
                slept := slept p + Z.to_nat (cycle a);
                closed := closed p |}).
Proof.
  intros Hc R Hs. rewrite main_round_effect.
  rewrite (proj2 (cycle_returns_iff host (round_world r) (packets a)
                                    (mem p)) Hc).
  rewrite Hs. cbn [arrives_in_cycle deliver_if]. rewrite R.
  rewrite sleep_loop_quiet by (auto; intros; reflexivity).
  unfold range. now rewrite length_seq.
Qed.

Lemma while_running_quiet (host : endianness) (a : args)
      (quiet rest : list round) (p : process) :
  fst (read_nexthop_count host (shm_map (mem p))) = Ret 0 ->
  running p = true ->
  (forall r, In r quiet -> signal r = NoSignal) ->
  while_running host a (quiet ++ rest) p
  = while_running host a rest
      {| mem := mem p; running := true;
         slept := slept p + length quiet * Z.to_nat (cycle a);
         closed := closed p |}.
Proof.
  revert p. induction quiet as [|r quiet IH]; intros p Hc R Hq.
  - cbn [app length Nat.mul]. rewrite Nat.add_0_r.
    destruct p. cbn in *. now subst.
  - cbn [app while_running].
    rewrite (Hq r (or_introl eq_refl)). cbn [arrives_before deliver_if].
    rewrite R. unfold bind.
    rewrite main_round_quiet by (auto; apply Hq; now left).
    rewrite IH by (cbn; auto using in_cons).
    cbn [mem running slept closed length Nat.mul].
    do 2 f_equal. lia.
Qed.

(** X11.  [main] returns 1 exactly when an argument is out of range
    (cycle below 10, packets outside 1..100) or the shared memory cannot
    be opened; in these cases no region has been mapped. *)
Theorem main_returns_1_iff (host : endianness) (a : args)
        (shm : option Mmap.t) (rounds : list round) :
  (fst (main host a shm rounds) = Exited 1
   <-> cycle a < 10 \/ packets a < 1 \/ 100 < packets a \/ shm = None)
  /\ (fst (main host a shm rounds) = Exited 1 ->
      snd (main host a shm rounds) = None).
Proof.
  unfold main.
  destruct (cycle a <? 10) eqn:E1.
  { apply Z.ltb_lt in E1. cbn. tauto. }
  apply Z.ltb_ge in E1.
  destruct (packets a <? 1) eqn:E2.
  { apply Z.ltb_lt in E2. cbn. tauto. }
  apply Z.ltb_ge in E2.
  destruct (packets a >? 100) eqn:E3.
  { apply Z.gtb_lt in E3. cbn. split; [|reflexivity]. split; [lia|reflexivity]. }
  assert (packets a <= 100) by (rewrite Z.gtb_ltb in E3; apply Z.ltb_ge in E3; lia).
  cbn [orb]. destruct shm as [m|]; [|cbn; tauto].
  destruct (while_running host a rounds _) as [[[]|e] p]; cbn [fst snd];
    (split; [split; [discriminate|intros [?|[?|[?|?]]]; try lia; discriminate]
            |discriminate]).
Qed.

Lemma main_mapped (host : endianness) (a : args) (m : Mmap.t)
      (rounds : list round) :
  10 <= cycle a -> 1 <= packets a <= 100 ->
  main host a (Some m) rounds
  = match while_running host a rounds
            {| mem := {| shm_map := m; probes := [] |};
               running := true; slept := 0; closed := false |} with
    | (Ret true, p) => (Exited 0, Some (close p))
    | (Ret false, p) => (StillRunning, Some p)
    | (Raise e, p) => (Crashed e, Some (close p))
    end.
Proof.
  intros Hc Hp. unfold main.
  destruct (cycle a <? 10) eqn:E1; [apply Z.ltb_lt in E1; lia|].
  destruct (packets a <? 1) eqn:E2; [apply Z.ltb_lt in E2; lia|].
  destruct (packets a >? 100) eqn:E3; [apply Z.gtb_lt in E3; lia|].
  reflexivity.
Qed.

(** X12.  [main] never changes the shared region and never probes: in
    whatever way it ends, the mapped bytes are those it found and the
    probe log is empty; and once it has ended (by [return] or by an
    exception) the map has been closed. *)
Theorem main_never_writes (host : endianness) (a : args) (m : Mmap.t)
        (rounds : list round) (p : process) :
  snd (main host a (Some m) rounds) = Some p ->
  mem p = {| shm_map := m; probes := [] |}
  /\ (fst (main host a (Some m) rounds) <> StillRunning ->
      closed p = true).
Proof.
  unfold main.
  destruct (cycle a <? 10); [discriminate|].
  destruct (_ || _); [discriminate|].
  pose proof (while_running_mem host a rounds
                {| mem := {| shm_map := m; probes := [] |};
                   running := true; slept := 0; closed := false |})
    as [Hm Hc].
  destruct (while_running host a rounds _) as [[[]|e] q];
    cbn [fst snd mem closed] in *; intros [= <-];
    cbn [close mem closed]; split; auto; congruence.
Qed.

(** X13.  On a table whose count is above zero (and which holds entry 0
    in full), the daemon does not survive its first cycle: with valid
    arguments, once the loop is entered (no signal came before its first
    test of [running]), [main] ends with [struct.error] raised, without
    having slept, probed or written, and with the map closed by the
    [finally] block.  The flag [running] is then still set, unless the
    signal landed while that cycle ran. *)
Theorem main_crashes_on_nonempty_table (host : endianness) (a : args)
        (m : Mmap.t) (count : Z) (r : round) (rest : list round) :
  10 <= cycle a -> 1 <= packets a <= 100 ->
  fst (read_nexthop_count host m) = Ret count ->
  0 < count ->
  (76 <= length m)%nat ->
  signal r <> BeforeCycle ->
  main host a (Some m) (r :: rest)
  = (Crashed StructError,
     Some {| mem := {| shm_map := m; probes := [] |};
             running := negb (arrives_in_cycle (signal r));
             slept := 0; closed := true |}).
Proof.
  intros Hc Hp Hcount Hpos Hlen Hsig.
  rewrite main_mapped by assumption.
  cbn [while_running]. cbv zeta.
  assert (B : arrives_before (signal r) = false)
    by (destruct (signal r); try reflexivity; congruence).
  rewrite B. cbn [deliver_if running]. unfold bind.
  rewrite main_round_effect. cbn [mem]. cbv zeta.
  rewrite (cycle_struct_error host (round_world r) (packets a) count)
    by assumption.
  cbn [fst]. destruct (arrives_in_cycle (signal r)); reflexivity.
Qed.

Lemma main_crashes_on_nonempty_table_witness :
  main LittleEndian {| cycle := 30; packets := 3 |} (Some sample_region)
       [{| round_world := {| net_of := fun _ => lossy_net;
                             time_s := fun _ => 1700000000 |};
           signal := DuringCycle |}]
  = (Crashed StructError,
     Some {| mem := {| shm_map := sample_region; probes := [] |};
             running := negb (arrives_in_cycle DuringCycle);
             slept := 0; closed := true |}).
Proof.
  apply (main_crashes_on_nonempty_table LittleEndian
           {| cycle := 30; packets := 3 |} sample_region 2).
  - cbn. lia.
  - cbn. lia.
  - vm_compute. reflexivity.
  - lia.
  - pose proof sample_region_length. lia.
  - discriminate.
Defined.

(** X14.  On an empty table (count zero) the daemon idles until it is
    told to stop, and stops within the second: after any number of quiet
    passes, a signal that arrives during the [k]-th second of a pause
    (counted from 0) lets that second finish and no other; [main] then
    returns 0 with the map closed and the region as it was. *)
Theorem main_stops_within_the_second (host : endianness) (a : args)
        (m : Mmap.t) (quiet later : list round) (r : round) (k : nat) :
  10 <= cycle a -> 1 <= packets a <= 100 ->
  fst (read_nexthop_count host m) = Ret 0 ->
  (forall q, In q quiet -> signal q = NoSignal) ->
  signal r = DuringSleep k ->
  Z.of_nat k < cycle a ->
  main host a (Some m) (quiet ++ r :: later)
  = (Exited 0,
     Some {| mem := {| shm_map := m; probes := [] |};
             running := false;
             slept := length quiet * Z.to_nat (cycle a) + k + 1;
             closed := true |}).
Proof.
  intros Hc Hp Hcount Hq Hs Hk.
  rewrite main_mapped by assumption.
  rewrite while_running_quiet by auto.
  cbn [mem running slept closed Nat.add while_running]. cbv zeta.
  rewrite Hs. cbn [arrives_before deliver_if running].
  unfold bind. rewrite main_round_effect. cbn [mem]. cbv zeta.
  rewrite (proj2 (cycle_returns_iff host (round_world r) (packets a) _))
    by exact Hcount.
  rewrite Hs. cbn [arrives_in_cycle deliver_if running].
  unfold range. rewrite sleep_loop_interrupted by (auto; lia).
  rewrite while_running_stopped by reflexivity.
  reflexivity.
Qed.

Lemma main_stops_within_the_second_witness :
  main LittleEndian {| cycle := 30; packets := 3 |} (Some empty_region)
       ([] ++ {| round_world := {| net_of := fun _ => lossy_net;
                                   time_s := fun _ => 1700000000 |};
                 signal := DuringSleep 4 |} :: [])
  = (Exited 0,
     Some {| mem := {| shm_map := empty_region; probes := [] |};
             running := false;
             slept := length (@nil round) * Z.to_nat 30 + 4 + 1;
             closed := true |}).
Proof.
  apply (main_stops_within_the_second LittleEndian
           {| cycle := 30; packets := 3 |} empty_region [] []).
  - cbn. lia.
  - cbn. lia.
  - vm_compute. reflexivity.
  - intros q [].
  - reflexivity.
  - cbn. lia.
Defined.

(** X15.  A signal that arrives while the cycle itself runs ends the
    daemon without any pause: on an empty table, after any number of
    quiet passes, [main] returns 0 having slept only the pauses of the
    quiet passes. *)
Theorem main_stops_after_cycle (host : endianness) (a : args)
        (m : Mmap.t) (quiet later : list round) (r : round) :
  10 <= cycle a -> 1 <= packets a <= 100 ->
  fst (read_nexthop_count host m) = Ret 0 ->
  (forall q, In q quiet -> signal q = NoSignal) ->
  signal r = DuringCycle ->
  main host a (Some m) (quiet ++ r :: later)
  = (Exited 0,
     Some {| mem := {| shm_map := m; probes := [] |};
             running := false;
             slept := length quiet * Z.to_nat (cycle a);
             closed := true |}).
Proof.
  intros Hc Hp Hcount Hq Hs.
  rewrite main_mapped by assumption.
  rewrite while_running_quiet by auto.
  cbn [mem running slept closed Nat.add while_running]. cbv zeta.
  rewrite Hs. cbn [arrives_before deliver_if running].
  unfold bind. rewrite main_round_effect. cbn [mem]. cbv zeta.
  rewrite (proj2 (cycle_returns_iff host (round_world r) (packets a) _))
    by exact Hcount.
  rewrite Hs. cbn [arrives_in_cycle deliver_if signal_handler running].
  rewrite while_running_stopped by reflexivity.
  reflexivity.
Qed.

Lemma main_stops_after_cycle_witness :
  main BigEndian {| cycle := 10; packets := 1 |} (Some empty_region)
       ([] ++ {| round_world := {| net_of := fun _ => lossy_net;
                                   time_s := fun _ => 1700000000 |};
                 signal := DuringCycle |} :: [])
  = (Exited 0,
     Some {| mem := {| shm_map := empty_region; probes := [] |};
             running := false;
             slept := length (@nil round) * Z.to_nat 10;
             closed := true |}).
Proof.
  apply (main_stops_after_cycle BigEndian
           {| cycle := 10; packets := 1 |} empty_region [] []).
  - cbn. lia.
  - cbn. lia.
  - vm_compute. reflexivity.
  - intros q [].
  - reflexivity.
Defined.

End DaemonFacts.

Module DaemonExit.
Import Daemon DaemonFacts.

Lemma main_never_writes_witness :
  mem {| mem := {| shm_map := zeros 52; probes := [] |};
         running := false; slept := 0; closed := true |}
  = {| shm_map := zeros 52; probes := [] |}.
Proof.
  apply (main_never_writes LittleEndian {| cycle := 30; packets := 3 |}
           (zeros 52)
           [{| round_world := {| net_of := fun _ => lossy_net;
                                 time_s := fun _ => 1700000000 |};
               signal := DuringCycle |}]).
  vm_compute. reflexivity.
Defined.

Lemma main_round_keeps_running (host : endianness) (a : args) (r : round)
      (p p1 : process) :
  running p = true ->
  signal r = NoSignal ->
  main_round host a r p = (Ret tt, p1) ->
  running p1 = true.
Proof.
  intros R Hs. rewrite main_round_effect. cbv zeta.
  destruct (fst (run_measurement_cycle _ _ _ _)) as [[]|e]; [|discriminate].
  rewrite Hs. cbn [arrives_in_cycle deliver_if]. rewrite R.
  rewrite sleep_loop_quiet by (auto; intros; reflexivity).
  intros [= <-]. reflexivity.
Qed.

Lemma main_round_cycle_returned (host : endianness) (a : args) (r : round)
      (p p1 : process) :
  main_round host a r p = (Ret tt, p1) ->
  fst (run_measurement_cycle host (round_world r) (packets a) (mem p))
  = Ret tt.
Proof.
  rewrite main_round_effect. cbv zeta.
  destruct (fst (run_measurement_cycle _ _ _ _)) as [[]|e];
    [reflexivity|discriminate].
Qed.

(** The loop is only left after a signal. *)
Lemma while_running_left (host : endianness) (a : args)
      (rounds : list round) (p p' : process) :
  running p = true ->
  while_running host a rounds p = (Ret true, p') ->
  exists r, In r rounds /\ signal r <> NoSignal.
Proof.
  revert p. induction rounds as [|r rest IH]; intros p R.
  - cbn [while_running]. rewrite R. discriminate.
  - cbn [while_running]. cbv zeta.
    destruct (signal r) eqn:Hs;
      try (intros _; exists r; split; [now left|congruence]).
    cbn [arrives_before deliver_if]. rewrite R. unfold bind.
    destruct (main_round host a r p) as [[[]|e] p1] eqn:E; [|discriminate].
    intros Hw.
    pose proof (main_round_keeps_running host a r p p1 R Hs E) as R1.
    destruct (IH p1 R1 Hw) as (q & Hq & Hn).
    exists q. split; [now right|exact Hn].
Qed.

(** X16.  [main] returns 0 only after a shutdown signal, and only with
    arguments in range and the shared memory mapped; and unless that
    signal came before the loop was entered (so that no cycle ran at
    all), the count field of the table reads zero. *)
Theorem main_returns_0_only_if (host : endianness) (a : args)
        (shm : option Mmap.t) (rounds : list round) :
  fst (main host a shm rounds) = Exited 0 ->
  10 <= cycle a /\ 1 <= packets a <= 100
  /\ (exists r, In r rounds /\ signal r <> NoSignal)
  /\ (exists m,
        shm = Some m
        /\ (fst (read_nexthop_count host m) = Ret 0
            \/ exists r rest, rounds = r :: rest
                              /\ signal r = BeforeCycle)).
Proof.
  unfold main.
  destruct (cycle a <? 10) eqn:E1; [discriminate|]. apply Z.ltb_ge in E1.
  destruct (packets a <? 1) eqn:E2; [discriminate|]. apply Z.ltb_ge in E2.
  destruct (packets a >? 100) eqn:E3; [discriminate|].
  rewrite Z.gtb_ltb in E3. apply Z.ltb_ge in E3.
  cbn [orb]. destruct shm as [m|]; [|discriminate].
  set (p0 := {| mem := {| shm_map := m; probes := [] |};
                running := true; slept := 0; closed := false |}).
  destruct (while_running host a rounds p0) as [[[]|e] p] eqn:W;
    cbn [fst]; try discriminate.
  intros _. split; [lia|]. split; [lia|]. split.
  - apply (while_running_left host a rounds p0 p); [reflexivity|exact W].
  - exists m. split; [reflexivity|].
    destruct rounds as [|r rest]; [discriminate|].
    destruct (signal r) eqn:Hs; try (right; eauto; fail); left;
      cbn [while_running] in W; cbv zeta in W; rewrite Hs in W;
      cbn [arrives_before deliver_if running p0] in W; unfold bind in W;
      (destruct (main_round host a r p0) as [[[]|e] p1] eqn:E;
       [|discriminate]);
      apply main_round_cycle_returned in E;
      apply cycle_returns_iff in E; exact E.
Qed.

Lemma main_returns_0_only_if_witness :
  10 <= 30 /\ 1 <= 3 <= 100
  /\ (exists r,
        In r [{| round_world := {| net_of := fun _ => lossy_net;
                                   time_s := fun _ => 1700000000 |};
                 signal := BeforeCycle |}]
        /\ signal r <> NoSignal)
  /\ (exists m,
        Some sample_region = Some m
        /\ (fst (read_nexthop_count LittleEndian m) = Ret 0
            \/ exists r rest,
                 [{| round_world := {| net_of := fun _ => lossy_net;
                                       time_s := fun _ => 1700000000 |};
                     signal := BeforeCycle |}] = r :: rest
                 /\ signal r = BeforeCycle)).
Proof.
  apply (main_returns_0_only_if LittleEndian
           {| cycle := 30; packets := 3 |} (Some sample_region)
           [{| round_world := {| net_of := fun _ => lossy_net;
                                 time_s := fun _ => 1700000000 |};
               signal := BeforeCycle |}]).
  reflexivity.
Defined.

End DaemonExit.

(** ** The reflector over a whole run *)

Module ReflectorRun.
Import Reflector ReflectorSpec ReflectorFacts.

Lemma main_loop_stopped (ps : list pass) (s : state) :
  running s = false -> main_loop ps s = s.
Proof. intros H. destruct ps; cbn; [|rewrite H]; reflexivity. Qed.

Lemma main_loop_app (xs ys : list pass) (s : state) :
  main_loop (xs ++ ys) s = main_loop ys (main_loop xs s).
Proof.
  revert s. induction xs as [|x xs IH]; intros s; cbn [app main_loop].
  - reflexivity.
  - destruct (running s) eqn:R; [apply IH|].
    now rewrite main_loop_stopped.
Qed.

Lemma loop_body_count (p : pass) (s : state) :
  packet_count (loop_body p s)
  = packet_count s + Z.of_nat (length (echo_of p)).
Proof.
  unfold loop_body, receive_and_echo, echo_of.
  destruct (recv p) as [data a|e]; [|cbn; lia].
  destruct (Z.of_nat (length data) <? 20) eqn:E; [cbn; lia|].
  apply Z.ltb_ge in E.
  destruct (parse_sequence_ok data ltac:(lia)) as [v Hv].
  unfold bind, count_packet, lift, sendto. rewrite Hv. cbn. lia.
Qed.

Lemma deliver_fields (p : pass) (s : state) :
  echoed (deliver p s) = echoed s
  /\ packet_count (deliver p s) = packet_count s.
Proof. unfold deliver. destruct (signalled p); auto. Qed.

Lemma listened_quiet (ps : list pass) :
  (forall p, In p ps -> signalled p = false) -> listened ps = ps.
Proof.
  induction ps as [|p ps IH]; intros H; [reflexivity|].
  cbn [listened]. rewrite (H p (or_introl eq_refl)), IH; auto using in_cons.
Qed.

Lemma listened_incl (ps : list pass) (p : pass) :
  In p (listened ps) -> In p ps.
Proof.
  induction ps as [|q ps IH]; [tauto|].
  cbn [listened]. intros [->|H]; [now left|].
  destruct (signalled q); [destruct H|]. right. auto.
Qed.

Lemma main_loop_quiet_running (ps : list pass) (s : state) :
  running s = true ->
  (forall p, In p ps -> signalled p = false) ->
  running (main_loop ps s) = true.
Proof.
  revert s. induction ps as [|p ps IH]; intros s R Hq; [exact R|].
  cbn [main_loop]. rewrite R. apply IH; [|auto using in_cons].
  unfold deliver. rewrite (Hq p (or_introl eq_refl)).
  now rewrite (proj2 (loop_body_echo p s)).
Qed.

(** C9.  The reflector's loop, started listening and not yet told to
    stop, handles a received datagram as follows, whatever passes
    (timeouts, errors, other datagrams) came before it: a datagram of at
    least 20 bytes is sent back once, byte for byte, to the address and
    port it came from; for a datagram of fewer than 20 bytes nothing is
    sent and the packet counter does not move. *)
Theorem reflector_echoes_listening (before : list pass) (p : pass)
        (s : state) (data : list byte) (a : address) :
  running s = true ->
  (forall q, In q before -> signalled q = false) ->
  recv p = Received data a ->
  (20 <= Z.of_nat (length data) ->
   echoed (main_loop (before ++ [p]) s)
   = echoed (main_loop before s) ++ [(data, a)])
  /\ (Z.of_nat (length data) < 20 ->
      echoed (main_loop (before ++ [p]) s) = echoed (main_loop before s)
      /\ packet_count (main_loop (before ++ [p]) s)
         = packet_count (main_loop before s)).
Proof.
  intros R Hq Hr.
  pose proof (main_loop_quiet_running before s R Hq) as R1.
  rewrite main_loop_app. set (s1 := main_loop before s) in *.
  cbn [main_loop]. rewrite R1.
  destruct (deliver_fields p (loop_body p s1)) as [E1 E2].
  rewrite E1, E2, loop_body_count, (proj1 (loop_body_echo p s1)).
  unfold echo_of. rewrite Hr.
  split; intros Hlen.
  - apply Z.ltb_ge in Hlen. now rewrite Hlen.
  - apply Z.ltb_lt in Hlen. rewrite Hlen. cbn [length]. rewrite app_nil_r.
    split; [reflexivity|lia].
Qed.

Lemma reflector_echoes_listening_witness :
  echoed (main_loop ([{| recv := RecvFails SocketTimeout;
                         send_fails := None; signalled := false |}]
                     ++ [{| recv := Received probe20 peer;
                            send_fails := None; signalled := false |}])
                    start)
  = echoed (main_loop [{| recv := RecvFails SocketTimeout;
                          send_fails := None; signalled := false |}]
                      start)
    ++ [(probe20, peer)].
Proof.
  apply (reflector_echoes_listening
           [{| recv := RecvFails SocketTimeout;
               send_fails := None; signalled := false |}]
           {| recv := Received probe20 peer;
              send_fails := None; signalled := false |}
           start probe20 peer).
  - reflexivity.
  - intros q [<-|[]]. reflexivity.
  - reflexivity.
  - vm_compute. discriminate.
Defined.

(** X17.  Over any run that starts listening, the [sendto] calls of the
    reflector are, in order, exactly the datagrams of 20 bytes or more
    received in the passes up to and including the one during which the
    shutdown signal arrives, each addressed to its sender; receive
    errors, timeouts and failing sends add nothing and skip nothing. *)
Theorem reflector_run_echoes (ps : list pass) (s : state) :
  running s = true ->
  echoed (main_loop ps s) = echoed s ++ flat_map echo_of (listened ps).
Proof. apply main_loop_echoes. Qed.

Lemma reflector_run_echoes_witness :
  echoed (main_loop [{| recv := Received probe20 peer;
                        send_fails := None; signalled := false |}] start)
  = echoed start
    ++ flat_map echo_of
         (listened [{| recv := Received probe20 peer;
                       send_fails := None; signalled := false |}]).
Proof.
  apply (reflector_run_echoes
           [{| recv := Received probe20 peer;
               send_fails := None; signalled := false |}] start).
  reflexivity.
Defined.

(** X18.  The counter reported at shutdown counts the [sendto] calls: in
    any run, [packet_count] grows by exactly the number of calls
    made. *)
Theorem reflector_counts_echoes (ps : list pass) (s : state) :
  packet_count (main_loop ps s) - packet_count s
  = Z.of_nat (length (echoed (main_loop ps s)))
    - Z.of_nat (length (echoed s)).
Proof.
  revert s. induction ps as [|p ps IH]; intros s; cbn [main_loop]; [lia|].
  destruct (running s); [|lia].
  specialize (IH (deliver p (loop_body p s))).
  destruct (deliver_fields p (loop_body p s)) as [E1 E2].
  rewrite E1, E2 in IH.
  rewrite loop_body_count in IH.
  rewrite (proj1 (loop_body_echo p s)), length_app in IH. lia.
Qed.

(** X19.  The reflector never sends unasked and never answers a short
    datagram: every datagram it sends in a run has at least 20 bytes and
    is one it received in that run, sent to the peer it came from. *)
Theorem reflector_only_answers (ps : list pass) (data : list byte)
        (a : address) :
  In (data, a) (echoed (main_loop ps start)) ->
  20 <= Z.of_nat (length data)
  /\ exists p, In p ps /\ recv p = Received data a.
Proof.
  rewrite main_loop_echoes by reflexivity. cbn [echoed start app].
  intros Hin. apply in_flat_map in Hin. destruct Hin as (p & Hp & He).
  apply listened_incl in Hp. unfold echo_of in He.
  destruct (recv p) as [d b|e] eqn:Hr; [|destruct He].
  destruct (Z.of_nat (length d) <? 20) eqn:E; [destruct He|].
  apply Z.ltb_ge in E. destruct He as [[= <- <-]|[]].
  split; [exact E|]. exists p. auto.
Qed.

Lemma reflector_only_answers_witness :
  20 <= Z.of_nat (length probe20)
  /\ exists p,
       In p [{| recv := Received probe20 peer;
                send_fails := None; signalled := false |}]
       /\ recv p = Received probe20 peer.
Proof.
  apply (reflector_only_answers
           [{| recv := Received probe20 peer;
               send_fails := None; signalled := false |}] probe20 peer).
  vm_compute. left. reflexivity.
Defined.

(** X20.  Once a shutdown signal has arrived the reflector handles
    nothing more: the passes offered after the signalled one change
    nothing, and the loop has stopped. *)
Theorem reflector_stops_on_signal (before after : list pass) (p : pass)
        (s : state) :
  signalled p = true ->
  main_loop (before ++ p :: after) s = main_loop (before ++ [p]) s
  /\ running (main_loop (before ++ [p]) s) = false.
Proof.
  intros Hsig.
  assert (R : running (main_loop (before ++ [p]) s) = false).
  { rewrite main_loop_app. cbn [main_loop].
    destruct (running (main_loop before s)) eqn:R; [|exact R].
    unfold deliver. rewrite Hsig. reflexivity. }
  split; [|exact R].
  change (p :: after) with ([p] ++ after).
  rewrite app_assoc, main_loop_app.
  now apply main_loop_stopped.
Qed.

Lemma reflector_stops_on_signal_witness :
  running (main_loop ([] ++ [{| recv := RecvFails SocketTimeout;
                                send_fails := None;
                                signalled := true |}]) start) = false.
Proof.
  apply (reflector_stops_on_signal [] []
           {| recv := RecvFails SocketTimeout;
              send_fails := None; signalled := true |} start).
  reflexivity.
Defined.

(** X21.  No error ends the loop: as long as no shutdown signal arrives,
    the reflector is still listening after any sequence of passes,
    whatever [recvfrom] and [sendto] raised, and it has answered every
    datagram of 20 bytes or more it received. *)
Theorem reflector_survives_errors (ps : list pass) (s : state) :
  running s = true ->
  (forall p, In p ps -> signalled p = false) ->
  running (main_loop ps s) = true
  /\ echoed (main_loop ps s) = echoed s ++ flat_map echo_of ps.
Proof.
  intros R Hq. split.
  - revert s R. induction ps as [|p ps IH]; intros s R; [exact R|].
    cbn [main_loop]. rewrite R. apply IH; [auto using in_cons|].
    unfold deliver. rewrite (Hq p (or_introl eq_refl)).
    now rewrite (proj2 (loop_body_echo p s)).
  - rewrite main_loop_echoes by exact R. now rewrite listened_quiet.
Qed.

Lemma reflector_survives_errors_witness :
  running (main_loop [{| recv := RecvFails OSError;
                         send_fails := None; signalled := false |};
                      {| recv := Received probe20 peer;
                         send_fails := Some OSError;
                         signalled := false |}] start) = true.
Proof.
  apply (reflector_survives_errors
           [{| recv := RecvFails OSError;
               send_fails := None; signalled := false |};
            {| recv := Received probe20 peer;
               send_fails := Some OSError; signalled := false |}] start).
  - reflexivity.
  - intros p [<-|[<-|[]]]; reflexivity.
Defined.

End ReflectorRun.

(** ** Daemon and reflector together *)

Module EndToEnd.
Import Reflector ReflectorSpec ReflectorFacts.

(** The bytes of the [j]-th packet of a burst. *)
Lemma sent_packet_bytes (w : net) (ip : String.string) (port count : Z)
      (j : nat) (c : sendto_call) :
  nth_error (snd (measure_twamp_light w ip port count)) j = Some c ->
  payload c = be_bytes 4 (Z.of_nat j + 1)
                ++ be_bytes 8 (time_us (io w j)) ++ be_bytes 8 0
  /\ 0 <= Z.of_nat j + 1 < 2 ^ 32.
Proof.
  destruct (socket_opens w) eqn:Hs.
  2:{ rewrite measure_socket_fails by assumption.
      destruct j; discriminate. }
  rewrite measure_by_trace by assumption. cbn [snd].
  unfold range. intros Hj.
  apply burst_trace_positional in Hj. cbn [Nat.add] in Hj.
  destruct Hj as (Hp & _ & _).
  apply probe_packet_inv in Hp. destruct Hp as (_ & Hseq & ->).
  split; [reflexivity|lia].
Qed.

(** X22.  Every probe the daemon sends is one the reflector answers:
    whatever the burst and whatever state the reflector is in, a pass
    that receives the [j]-th packet of a burst sends the same bytes back
    to the sender, and the sequence number the reflector reads from it
    (for its log line) is [j + 1], the number the daemon wrote. *)
Theorem probe_is_reflected (w : net) (ip : String.string) (port count : Z)
        (j : nat) (c : sendto_call) (p : pass) (from : address)
        (s : state) :
  nth_error (snd (measure_twamp_light w ip port count)) j = Some c ->
  recv p = Received (payload c) from ->
  echoed (loop_body p s) = echoed s ++ [(payload c, from)]
  /\ PyStruct.unpack BigEndian PyStruct.Network [PyStruct.I]
                     (firstn 4 (payload c))
     = Ret [Z.of_nat j + 1].
Proof.
  intros Hj Hr. apply sent_packet_bytes in Hj. destruct Hj as [Hb Hseq].
  split.
  - rewrite (proj1 (loop_body_echo p s)). unfold echo_of. rewrite Hr, Hb.
    rewrite !length_app, !be_bytes_length. reflexivity.
  - rewrite Hb.
    change (firstn 4 (be_bytes 4 (Z.of_nat j + 1)
                        ++ be_bytes 8 (time_us (io w j)) ++ be_bytes 8 0))
      with (be_bytes 4 (Z.of_nat j + 1)).
    unfold PyStruct.unpack. rewrite be_bytes_length.
    cbn [PyStruct.calcsize map PyStruct.size list_sum Nat.add Nat.eqb
         PyStruct.unpack_fields PyStruct.order int_from_bytes].
    rewrite firstn_all2 by (rewrite be_bytes_length; lia).
    rewrite be_value_bytes by (change (Z.of_nat 4) with 4; lia).
    reflexivity.
Qed.

Lemma probe_is_reflected_witness :
  echoed (loop_body
            {| recv := Received
                         (be_bytes 4 1 ++ be_bytes 8 1700000000000000
                            ++ be_bytes 8 0) peer;
               send_fails := None; signalled := false |} start)
  = echoed start
    ++ [(be_bytes 4 1 ++ be_bytes 8 1700000000000000 ++ be_bytes 8 0,
         peer)].
Proof.
  apply (probe_is_reflected lossy_net localhost 862 3 0
           (call_with localhost 862
              (be_bytes 4 1 ++ be_bytes 8 1700000000000000
                 ++ be_bytes 8 0))
           {| recv := Received
                        (be_bytes 4 1 ++ be_bytes 8 1700000000000000
                           ++ be_bytes 8 0) peer;
              send_fails := None; signalled := false |} peer start).
  - vm_compute. reflexivity.
  - reflexivity.
Defined.

End EndToEnd.

(** ** Addresses as text *)

Lemma octet_value_octet (b : byte) : octet_value (octet b) = Some (Byte.to_N b).
Proof. destruct b; reflexivity. Qed.

Lemma octet_no_dot (b : byte) : no_dot (octet b).
Proof. destruct b; cbn; repeat split; discriminate. Qed.

Lemma octet_inj (a b : byte) : octet a = octet b -> a = b.
Proof.
  intros E. apply (f_equal octet_value) in E.
  rewrite !octet_value_octet in E. injection E as E.
  apply (f_equal Byte.of_N) in E. rewrite !Byte.of_to_N in E.
  now injection E.
Qed.

(** Two texts that agree up to and after their first dot. *)
Lemma split_at_dot (s1 s2 r1 r2 : String.string) :
  no_dot s1 -> no_dot s2 ->
  String.append s1 (String.append dot r1)
  = String.append s2 (String.append dot r2) ->
  s1 = s2 /\ r1 = r2.
Proof.
  revert s2. induction s1 as [|c s1 IH]; intros [|c2 s2] H1 H2 E; cbn in *.
  - injection E as E. auto.
  - injection E as Ec _. destruct H2 as [H2 _]. congruence.
  - injection E as Ec _. destruct H1 as [H1 _]. congruence.
  - injection E as Ec E. destruct H1 as [_ H1], H2 as [_ H2].
    destruct (IH s2 H1 H2 E) as [-> ->]. subst. auto.
Qed.

Lemma inet_ntoa_quad (b0 b1 b2 b3 : byte) :
  inet_ntoa [b0; b1; b2; b3]
  = String.append (octet b0) (String.append dot
      (String.append (octet b1) (String.append dot
         (String.append (octet b2) (String.append dot (octet b3)))))).
Proof. reflexivity. Qed.

Lemma inet_ntoa_inj (b0 b1 b2 b3 c0 c1 c2 c3 : byte) :
  inet_ntoa [b0; b1; b2; b3] = inet_ntoa [c0; c1; c2; c3] ->
  [b0; b1; b2; b3] = [c0; c1; c2; c3].
Proof.
  rewrite !inet_ntoa_quad. intros E.
  apply split_at_dot in E; auto using octet_no_dot. destruct E as [E0 E].
  apply split_at_dot in E; auto using octet_no_dot. destruct E as [E1 E].
  apply split_at_dot in E; auto using octet_no_dot. destruct E as [E2 E3].
  apply octet_inj in E0, E1, E2, E3. now subst.
Qed.

Lemma ip_to_string_inv (ip : Z) (s : String.string) :
  ip_to_string ip = Ret s ->
  0 <= ip < 2 ^ 32 /\ s = inet_ntoa (be_bytes 4 ip).
Proof.
  unfold ip_to_string, PyStruct.pack.
  cbn [length Nat.eqb PyStruct.pack_fields PyStruct.order].
  destruct (PyStruct.pack_field BigEndian PyStruct.I ip) as [bs|] eqn:E;
    cbn [obind]; [|discriminate].
  apply pack_field_inv in E. destruct E as [R ->].
  change (Z.of_nat (PyStruct.size PyStruct.I)) with 4 in R.
  rewrite app_nil_r. intros [= <-]. split; [lia|reflexivity].
Qed.

(** X23.  [ip_to_string] accepts exactly the 32-bit values: for
    [0 <= ip < 2^32] it returns the dotted quad of the four octets of
    [ip], most significant first; for any other integer it raises
    [struct.error]. *)
Theorem ip_to_string_total (ip : Z) :
  (0 <= ip < 2 ^ 32 ->
   ip_to_string ip = Ret (inet_ntoa (be_bytes 4 ip)))
  /\ (~ 0 <= ip < 2 ^ 32 -> ip_to_string ip = Raise StructError).
Proof.
  unfold ip_to_string, PyStruct.pack.
  cbn [length Nat.eqb PyStruct.pack_fields PyStruct.order].
  split; intros H.
  - rewrite pack_field_fits
      by (change (Z.of_nat (PyStruct.size PyStruct.I)) with 4; lia).
    cbn [obind]. now rewrite app_nil_r.
  - unfold PyStruct.pack_field.
    change (Z.of_nat (PyStruct.size PyStruct.I)) with 4.
    destruct (0 <=? ip) eqn:E1; [|reflexivity].
    destruct (ip <? 256 ^ 4) eqn:E2; [|reflexivity].
    apply Z.leb_le in E1. apply Z.ltb_lt in E2. lia.
Qed.

Lemma ip_to_string_total_witness :
  ip_to_string 3232235777 = Ret (inet_ntoa (be_bytes 4 3232235777)).
Proof. apply (ip_to_string_total 3232235777). lia. Defined.

(** X24.  Different addresses are printed differently: if
    [ip_to_string] returns the same text for two integers, they are the
    same integer. *)
Theorem ip_to_string_injective (a b : Z) (s : String.string) :
  ip_to_string a = Ret s -> ip_to_string b = Ret s -> a = b.
Proof.
  intros Ha Hb.
  apply ip_to_string_inv in Ha, Hb.
  destruct Ha as [Ra ->], Hb as [Rb E].
  apply inet_ntoa_inj in E.
  assert (E' : be_bytes 4 a = be_bytes 4 b) by exact E.
  rewrite <- (be_value_bytes 4 a), <- (be_value_bytes 4 b)
    by (change (Z.of_nat 4) with 4; lia).
  now rewrite E'.
Qed.

Lemma ip_to_string_injective_witness : 167772161 = 167772161.
Proof.
  apply (ip_to_string_injective 167772161 167772161
           (inet_ntoa (be_bytes 4 167772161)));
    vm_compute; reflexivity.
Defined.
